(** * Buzzer.cpp: piezo sounder and backlight PWM driver

    A shallow embedding of [src/Hardware/Buzzer.cpp] (namespace [Buzzer]).
    The module state of the C++ file (two statics and two channel
    descriptors) becomes a record; every call into the PWM/PIO driver and
    every direct register write is appended, with its arguments, to a log
    carried by the same record.  The functions of the file are written in a
    small state-and-failure monad so that they read like their sources. *)

From Stdlib Require Import ZArith List Bool Lia.
From Stdlib Require Import PrimFloat FloatOps SpecFloat Uint63.
Import ListNotations.
Open Scope Z_scope.

(* The decimal literals of the source are not binary64 values; like the
   compiler, the float notation takes the nearest one. *)
Set Warnings "-inexact-float".

Module Buzzer.

(** ** Machine arithmetic *)

(** [uint32_t] and [uint16_t] values are integers reduced modulo the width. *)
Definition wrap32 (z : Z) : Z := z mod 2 ^ 32.
Definition wrap16 (z : Z) : Z := z mod 2 ^ 16.

(** Conversion of a binary64 value to an unsigned integer: truncation toward
    zero (only used on finite, non-negative constants). *)
Definition float_to_uint32 (x : float) : Z :=
  match Prim2SF x with
  | S754_finite false m e =>
      wrap32 (if 0 <=? e then Z.pos m * 2 ^ e else Z.pos m / 2 ^ (- e))
  | _ => 0
  end.

(** ** Driver vocabulary (ASF / OneBitPort) *)

Definition PWM_CHANNEL_0 : Z := 0.
Definition PWM_CHANNEL_1 : Z := 1.

Inductive pwm_prescaler := PWM_CMR_CPRE_CLKA.
Inductive pwm_align := PWM_ALIGN_LEFT.

(** [pwm_channel_t], with the fields the file initialises or assigns; the
    fields it leaves commented out stay zero and are not represented. *)
Record pwm_channel_t := mk_pwm_channel {
  channel : Z;
  ul_prescaler : pwm_prescaler;
  alignment : pwm_align;
  ul_period : Z;
  ul_duty : Z
}.

Inductive pio_type := PIO_PERIPH_A | PIO_PERIPH_B | PIO_OUTPUT_0.
Inductive pio_pin := PIO_PB0 | PIO_PB1 | PIO_PB5.
Inductive port_mode := InputPullup.

(** One entry per driver call or register write made by the file. *)
Inductive hw_op :=
| pwm_channel_disable (ch : Z)
| pwm_init (ul_clka ul_clkb : Z)
| pio_configure (t : pio_type) (mask : list pio_pin)
| pwm_channel_init (c : pwm_channel_t)
| PWM_CMR_or_DTE (ch : Z)
| PWM_DT_write (ch : Z) (v : Z)
| PWM_DTUPD_write (ch : Z) (v : Z)
| pwm_channel_enable (ch : Z)
| boardTypePort_setMode (m : port_mode).

(** ** Module state *)

Record state := mk_state {
  beepTicksToGo : Z;
  inBuzzer : bool;
  buzzer_pwm_channel_instance : pwm_channel_t;
  backlight_pwm_channel_instance : pwm_channel_t;
  PB13 : bool;          (* level the board presents on the board-type pin *)
  hw : list hw_op       (* driver calls and register writes, oldest first *)
}.

Definition set_beepTicksToGo (v : Z) (s : state) : state :=
  mk_state v (inBuzzer s) (buzzer_pwm_channel_instance s)
           (backlight_pwm_channel_instance s) (PB13 s) (hw s).

Definition set_inBuzzer (b : bool) (s : state) : state :=
  mk_state (beepTicksToGo s) b (buzzer_pwm_channel_instance s)
           (backlight_pwm_channel_instance s) (PB13 s) (hw s).

Definition set_buzzer (c : pwm_channel_t) (s : state) : state :=
  mk_state (beepTicksToGo s) (inBuzzer s) c
           (backlight_pwm_channel_instance s) (PB13 s) (hw s).

Definition set_backlight (c : pwm_channel_t) (s : state) : state :=
  mk_state (beepTicksToGo s) (inBuzzer s) (buzzer_pwm_channel_instance s)
           c (PB13 s) (hw s).

Definition set_PB13 (level : bool) (s : state) : state :=
  mk_state (beepTicksToGo s) (inBuzzer s) (buzzer_pwm_channel_instance s)
           (backlight_pwm_channel_instance s) level (hw s).

Definition log (op : hw_op) (s : state) : state :=
  mk_state (beepTicksToGo s) (inBuzzer s) (buzzer_pwm_channel_instance s)
           (backlight_pwm_channel_instance s) (PB13 s) (hw s ++ [op]).

Definition with_ul_period (p : Z) (c : pwm_channel_t) : pwm_channel_t :=
  mk_pwm_channel (channel c) (ul_prescaler c) (alignment c) p (ul_duty c).

Definition with_ul_duty (d : Z) (c : pwm_channel_t) : pwm_channel_t :=
  mk_pwm_channel (channel c) (ul_prescaler c) (alignment c) (ul_period c) d.

(** ** A state monad with failure

    [None] stands for an execution the C++ standard leaves undefined; the
    only such step in this file is an unsigned division by zero. *)
Definition M (A : Type) : Type := state -> option (A * state).

Definition ret {A} (a : A) : M A := fun s => Some (a, s).

Definition bind {A B} (m : M A) (k : A -> M B) : M B :=
  fun s => match m s with
           | Some (a, s') => k a s'
           | None => None
           end.

Notation "x <- m ;; k" := (bind m (fun x => k))
  (at level 61, m at next level, right associativity).
Notation "m ;; k" := (bind m (fun _ => k))
  (at level 61, right associativity).

Definition read {A} (f : state -> A) : M A := fun s => Some (f s, s).
Definition modify (f : state -> state) : M unit := fun s => Some (tt, f s).
Definition when (b : bool) (m : M unit) : M unit := if b then m else ret tt.

(** Unsigned division [a / b]. *)
Definition udiv (a b : Z) : M Z :=
  fun s => if b =? 0 then None else Some (a / b, s).

(** The state a [void] function leaves behind. *)
Definition exec (m : M unit) (s : state) : option state :=
  match m s with
  | Some (_, s') => Some s'
  | None => None
  end.

(** A call into the driver. *)
Definition call (op : hw_op) : M unit := modify (log op).

(** ** Constants of the file *)

Definition pwmClockFrequency : Z := 2000000.

(** Modelled from the spec: [MaxVolume] is declared in Buzzer.hpp, which is
    not part of the sources at hand.  The specification describes the volume
    table as a sequence of MaxVolume calibration constants, and the source
    initialises [volumeTable[MaxVolume]] with five of them. *)
Definition MaxVolume : Z := 5.

Definition volumeTable : list Z := [3; 9; 20; 40; 80].

(** [volumeTable[i]] *)
Definition volumeTable_at (i : Z) : Z := nth (Z.to_nat i) volumeTable 0.

(** The statics as the loader leaves them, before [Init]. *)
Definition buzzer_pwm_channel_initial : pwm_channel_t :=
  mk_pwm_channel 0 PWM_CMR_CPRE_CLKA PWM_ALIGN_LEFT 0 0.
Definition backlight_pwm_channel_initial : pwm_channel_t :=
  mk_pwm_channel 1 PWM_CMR_CPRE_CLKA PWM_ALIGN_LEFT 0 0.

Definition static_state (pin : bool) : state :=
  mk_state 0 true buzzer_pwm_channel_initial backlight_pwm_channel_initial
           pin [].

(** The board changes the level on PB13 (strap fitted, removed, noise). *)
Definition board_drives_PB13 (level : bool) : M unit :=
  modify (set_PB13 level).

(** Modelled from the spec: [OneBitPort::read] lives in OneBitPort.hpp, which
    is not part of the sources at hand; the specification describes it as a
    single-pin read of the digital input, so it returns the level present on
    the pin when it is called. *)
Definition boardTypePort_read : M bool := read PB13.

(** ** Tone parameters: the three locals of [Beep] *)

Definition Beep_period (frequency : Z) : M Z :=
  udiv pwmClockFrequency frequency.

Definition Beep_onTime (period volume : Z) : Z :=
  wrap32 (period * volumeTable_at (volume - 1)) / 200.

(** [uint16_t deadTime = period/2 - onTime;] *)
Definition Beep_deadTime (period onTime : Z) : Z :=
  wrap16 (wrap32 (period / 2 - onTime)).

(** [(deadTime << 16) | deadTime], stored into a 32-bit register. *)
Definition dead_time_word (deadTime : Z) : Z :=
  wrap32 (Z.lor (Z.shiftl deadTime 16) deadTime).

(** Calls into the module, and changes of the pin, as data. *)
Inductive op :=
| OpInit
| OpBeep (frequency ms volume : Z)
| OpTick
| OpNoisy
| OpSetBacklight (brightness : Z)
| OpBoard (level : bool).

(** The arguments of the entry points are [uint32_t]. *)
Definition is_uint32 (z : Z) : bool := (0 <=? z) && (z <? 2 ^ 32).

Definition op_typed (o : op) : bool :=
  match o with
  | OpBeep frequency ms volume =>
      is_uint32 frequency && is_uint32 ms && is_uint32 volume
  | OpSetBacklight brightness => is_uint32 brightness
  | _ => true
  end.

Section Build.

(** Compile-time configuration: the [IS_ER] switch and [MaxBrightness]
    (declared in a header that is not part of the sources at hand). *)
Variable IS_ER : bool.
Variable MaxBrightness : Z.

Definition backlightPwmFrequency : Z := if IS_ER then 20000 else 300.

Definition backlightPeriod : Z := pwmClockFrequency / backlightPwmFrequency.

(** [(uint32_t)((float)backlightPeriod * (3.3 - 1.45)/3.3)], declared (like
    [maxPwm]) only when [IS_ER] is set: the cast to [float] is exact for
    these periods, and the product and quotient are evaluated in binary64
    because the literals are [double]. *)
Definition minPwm : Z :=
  float_to_uint32
    (PrimFloat.of_uint63 (Uint63.of_Z backlightPeriod) * (3.3 - 1.45) / 3.3)%float.

Definition maxPwm : Z :=
  float_to_uint32
    (PrimFloat.of_uint63 (Uint63.of_Z backlightPeriod) * (3.3 - 0.7) / 3.3)%float.

(** ** The functions of the file *)

Definition Init : M unit :=
  call (pwm_channel_disable PWM_CHANNEL_0) ;;
  call (pwm_channel_disable PWM_CHANNEL_1) ;;
  call (pwm_init pwmClockFrequency 0) ;;
  call (pio_configure PIO_PERIPH_A [PIO_PB1]) ;;
  call (pio_configure PIO_OUTPUT_0 [PIO_PB0; PIO_PB5]) ;;
  modify (set_beepTicksToGo 0) ;;
  modify (set_inBuzzer false) ;;
  when IS_ER (call (boardTypePort_setMode InputPullup)).

Definition Beep (frequency ms volume : Z) : M unit :=
  when (negb (volume =? 0)) (
    let volume := if volume >? MaxVolume then MaxVolume else volume in
    modify (set_inBuzzer true) ;;
    ticks <- read beepTicksToGo ;;
    when (ticks =? 0) (
      period <- Beep_period frequency ;;
      let onTime := Beep_onTime period volume in
      let deadTime := Beep_deadTime period onTime in
      modify (fun s => set_buzzer (with_ul_period period (buzzer_pwm_channel_instance s)) s) ;;
      modify (fun s => set_buzzer (with_ul_duty (period / 2) (buzzer_pwm_channel_instance s)) s) ;;
      inst <- read buzzer_pwm_channel_instance ;;
      call (pwm_channel_init inst) ;;
      call (PWM_CMR_or_DTE PWM_CHANNEL_0) ;;
      call (PWM_DT_write PWM_CHANNEL_0 (dead_time_word deadTime)) ;;
      call (PWM_DTUPD_write PWM_CHANNEL_0 (dead_time_word deadTime)) ;;
      call (pwm_channel_enable PWM_CHANNEL_0) ;;
      call (pio_configure PIO_PERIPH_A [PIO_PB0]) ;;
      call (pio_configure PIO_PERIPH_B [PIO_PB5]) ;;
      modify (set_beepTicksToGo ms)
    ) ;;
    modify (set_inBuzzer false)
  ).

Definition Tick : M unit :=
  busy <- read inBuzzer ;;
  ticks <- read beepTicksToGo ;;
  when (negb busy && negb (ticks =? 0)) (
    modify (set_beepTicksToGo (wrap32 (ticks - 1))) ;;
    ticks <- read beepTicksToGo ;;
    when (ticks =? 0) (
      call (pwm_channel_disable PWM_CHANNEL_0) ;;
      call (pio_configure PIO_OUTPUT_0 [PIO_PB0; PIO_PB5])
    )
  ).

Definition Noisy : M bool :=
  ticks <- read beepTicksToGo ;;
  ret (negb (ticks =? 0)).

(** [((backlightPeriod - 1) * (MaxBrightness - brightness))/MaxBrightness] *)
Definition duty_full_range (brightness : Z) : M Z :=
  udiv (wrap32 (wrap32 (backlightPeriod - 1) * wrap32 (MaxBrightness - brightness)))
       MaxBrightness.

(** [minPwm + ((maxPwm - minPwm) * (MaxBrightness - brightness))/MaxBrightness] *)
Definition duty_min_max (brightness : Z) : M Z :=
  q <- udiv (wrap32 (wrap32 (maxPwm - minPwm) * wrap32 (MaxBrightness - brightness)))
            MaxBrightness ;;
  ret (wrap32 (minPwm + q)).

Definition SetBacklight (brightness : Z) : M unit :=
  modify (fun s => set_backlight (with_ul_period backlightPeriod (backlight_pwm_channel_instance s)) s) ;;
  duty <- (if IS_ER
           then (pin <- boardTypePort_read ;;
                 if pin then duty_full_range brightness
                        else duty_min_max brightness)
           else duty_full_range brightness) ;;
  modify (fun s => set_backlight (with_ul_duty duty (backlight_pwm_channel_instance s)) s) ;;
  inst <- read backlight_pwm_channel_instance ;;
  call (pwm_channel_init inst) ;;
  call (pwm_channel_enable PWM_CHANNEL_1).

(** [n] consecutive tick interrupts. *)
Fixpoint Ticks (n : nat) : M unit :=
  match n with
  | O => ret tt
  | S n' => Tick ;; Ticks n'
  end.

(** One step of a program that uses the module: one of the five entry
    points is called, or the board changes the pin. *)
Definition do (o : op) : M unit :=
  match o with
  | OpInit => Init
  | OpBeep frequency ms volume => Beep frequency ms volume
  | OpTick => Tick
  | OpNoisy => (_ <- Noisy ;; ret tt)
  | OpSetBacklight brightness => SetBacklight brightness
  | OpBoard level => board_drives_PB13 level
  end.

Fixpoint run (ops : list op) : M unit :=
  match ops with
  | [] => ret tt
  | o :: rest => do o ;; run rest
  end.

End Build.

(** ** Definitions used to state the properties *)

(** States the program can be in between two calls: whatever a well-typed
    sequence of calls and pin changes leaves, starting from the statics. *)
Definition reachable (IS_ER : bool) (MaxBrightness : Z) (s : state) : Prop :=
  exists pin ops,
    forallb op_typed ops = true /\
    exec (run IS_ER MaxBrightness ops) (static_state pin) = Some s.

(** The tick counter is a [uint32_t], and the flag is clear whenever a tone
    is active. *)
Definition between_calls (s : state) : Prop :=
  0 <= beepTicksToGo s < 2 ^ 32 /\
  (beepTicksToGo s <> 0 -> inBuzzer s = false).

(** A state with a tone in progress: what [Init], [Beep(440, 50, 3)] and
    one tick leave behind on a non-ER build. *)
Definition tone_in_progress : state :=
  let inst := mk_pwm_channel 0 PWM_CMR_CPRE_CLKA PWM_ALIGN_LEFT 4545 2272 in
  mk_state 49 false inst backlight_pwm_channel_initial true
    [ pwm_channel_disable PWM_CHANNEL_0;
      pwm_channel_disable PWM_CHANNEL_1;
      pwm_init pwmClockFrequency 0;
      pio_configure PIO_PERIPH_A [PIO_PB1];
      pio_configure PIO_OUTPUT_0 [PIO_PB0; PIO_PB5];
      pwm_channel_init inst;
      PWM_CMR_or_DTE PWM_CHANNEL_0;
      PWM_DT_write PWM_CHANNEL_0 (dead_time_word 1818);
      PWM_DTUPD_write PWM_CHANNEL_0 (dead_time_word 1818);
      pwm_channel_enable PWM_CHANNEL_0;
      pio_configure PIO_PERIPH_A [PIO_PB0];
      pio_configure PIO_PERIPH_B [PIO_PB5] ].

(** The two backlight inverters found on ER boards.  The comment above
    [minPwm] in the source says that the newer displays (MP3302 inverter,
    PWM smoothed to an analog input) have PB13 grounded; [Init] puts a
    pull-up on the pin, so a board without the strap reads high. *)
Inductive inverter := older_inverter | newer_MP3302.

Definition PB13_strap (i : inverter) : bool :=
  match i with
  | newer_MP3302 => false
  | older_inverter => true
  end.

(** The duty on the variant hardware in the words of the specification:
    full range for the newer inverter, [minPwm..maxPwm] for the older one. *)
Definition spec_variant_duty (MaxBrightness : Z) (i : inverter) (brightness : Z) : Z :=
  match i with
  | newer_MP3302 =>
      ((backlightPeriod true - 1) * (MaxBrightness - brightness)) / MaxBrightness
  | older_inverter =>
      minPwm true
      + ((maxPwm true - minPwm true) * (MaxBrightness - brightness)) / MaxBrightness
  end.

(** The value [SetBacklight] assigns to [ul_duty], given the pin level it
    reads. *)
Definition SetBacklight_duty (IS_ER : bool) (MaxBrightness : Z)
    (pin : bool) (brightness : Z) : Z :=
  let full :=
    wrap32 (wrap32 (backlightPeriod IS_ER - 1) * wrap32 (MaxBrightness - brightness))
    / MaxBrightness in
  let min_max :=
    wrap32 (minPwm IS_ER
            + wrap32 (wrap32 (maxPwm IS_ER - minPwm IS_ER)
                      * wrap32 (MaxBrightness - brightness)) / MaxBrightness) in
  if IS_ER then (if pin then full else min_max) else full.

(** The duty left in the backlight channel descriptor by a run. *)
Definition backlight_duty (r : option state) : option Z :=
  option_map (fun s => ul_duty (backlight_pwm_channel_instance s)) r.

(** The driver traffic of [Init]. *)
Definition init_ops (IS_ER : bool) : list hw_op :=
  [ pwm_channel_disable PWM_CHANNEL_0;
    pwm_channel_disable PWM_CHANNEL_1;
    pwm_init pwmClockFrequency 0;
    pio_configure PIO_PERIPH_A [PIO_PB1];
    pio_configure PIO_OUTPUT_0 [PIO_PB0; PIO_PB5] ]
  ++ (if IS_ER then [boardTypePort_setMode InputPullup] else []).

(** The value of a query and the state it leaves. *)
Definition eval {A} (m : M A) (s : state) : option A :=
  match m s with
  | Some (a, _) => Some a
  | None => None
  end.

(** Dead-time fields of the PWM_DT register: bits 0..15 act on the PWMH
    output, bits 16..31 on the complementary PWML output. *)
Definition DTH (w : Z) : Z := Z.land w (2 ^ 16 - 1).
Definition DTL (w : Z) : Z := Z.shiftr w 16.

(** The volume after the clamp at the top of [Beep]. *)
Definition clamped (volume : Z) : Z :=
  if volume >? MaxVolume then MaxVolume else volume.

(** The driver traffic of one tone start, in program order. *)
Definition tone_start (inst : pwm_channel_t) (deadTime : Z) : list hw_op :=
  [ pwm_channel_init inst;
    PWM_CMR_or_DTE PWM_CHANNEL_0;
    PWM_DT_write PWM_CHANNEL_0 (dead_time_word deadTime);
    PWM_DTUPD_write PWM_CHANNEL_0 (dead_time_word deadTime);
    pwm_channel_enable PWM_CHANNEL_0;
    pio_configure PIO_PERIPH_A [PIO_PB0];
    pio_configure PIO_PERIPH_B [PIO_PB5] ].

(** The driver traffic of the tick that ends a tone. *)
Definition tone_stop : list hw_op :=
  [ pwm_channel_disable PWM_CHANNEL_0;
    pio_configure PIO_OUTPUT_0 [PIO_PB0; PIO_PB5] ].

(** Values written to the PWM_DT register, in program order. *)
Fixpoint PWM_DT_writes (l : list hw_op) : list Z :=
  match l with
  | [] => []
  | PWM_DT_write _ w :: rest => w :: PWM_DT_writes rest
  | _ :: rest => PWM_DT_writes rest
  end.

(** The dead time in the words of the specification: the difference itself,
    with no 16-bit variable in between. *)
Definition spec_deadTime (frequency volume : Z) : Z :=
  let period := pwmClockFrequency / frequency in
  let onTime := (period * volumeTable_at (volume - 1)) / 200 in
  period / 2 - onTime.

(** *** Reading the driver log *)

(** The last enable ([Some true]) or disable ([Some false]) call the log
    holds for channel [ch], if any. *)
Definition switch_step (ch : Z) (acc : option bool) (o : hw_op) : option bool :=
  match o with
  | pwm_channel_enable c => if c =? ch then Some true else acc
  | pwm_channel_disable c => if c =? ch then Some false else acc
  | _ => acc
  end.

Definition last_switch (ch : Z) (l : list hw_op) : option bool :=
  fold_left (switch_step ch) l None.

Definition pio_pin_eqb (a b : pio_pin) : bool :=
  match a, b with
  | PIO_PB0, PIO_PB0 | PIO_PB1, PIO_PB1 | PIO_PB5, PIO_PB5 => true
  | _, _ => false
  end.

(** The function the last [pio_configure] naming pin [p] gave it, if any. *)
Definition route_step (p : pio_pin) (acc : option pio_type) (o : hw_op)
  : option pio_type :=
  match o with
  | pio_configure t mask => if existsb (pio_pin_eqb p) mask then Some t else acc
  | _ => acc
  end.

Definition last_route (p : pio_pin) (l : list hw_op) : option pio_type :=
  fold_left (route_step p) l None.

(** The descriptors passed to [pwm_channel_init], in program order. *)
Fixpoint channel_inits (l : list hw_op) : list pwm_channel_t :=
  match l with
  | [] => []
  | pwm_channel_init c :: rest => c :: channel_inits rest
  | _ :: rest => channel_inits rest
  end.

(** *** Tone parameters as functions of the arguments of [Beep] *)

(** The buzzer descriptor after [Beep] has assigned period and duty. *)
Definition tone_inst (before : pwm_channel_t) (frequency : Z) : pwm_channel_t :=
  mk_pwm_channel (channel before) (ul_prescaler before) (alignment before)
                 (pwmClockFrequency / frequency)
                 (pwmClockFrequency / frequency / 2).

(** The 16-bit dead time [Beep] derives from frequency and volume. *)
Definition tone_dead (frequency volume : Z) : Z :=
  Beep_deadTime (pwmClockFrequency / frequency)
                (Beep_onTime (pwmClockFrequency / frequency) (clamped volume)).

(** What the module keeps about the tone, and what it keeps about the
    backlight. *)
Definition tone_part (s : state) : Z * bool * pwm_channel_t :=
  (beepTicksToGo s, inBuzzer s, buzzer_pwm_channel_instance s).

Definition backlight_part (s : state) : pwm_channel_t :=
  backlight_pwm_channel_instance s.

(** Descriptors the module can hold between calls. *)
Definition buzzer_descriptor_ok (c : pwm_channel_t) : Prop :=
  channel c = 0 /\ 0 <= ul_period c <= pwmClockFrequency /\
  ul_duty c = ul_period c / 2.

Definition backlight_descriptor_ok (IS_ER : bool) (c : pwm_channel_t) : Prop :=
  channel c = 1 /\ (ul_period c = 0 \/ ul_period c = backlightPeriod IS_ER).

(** While a tone is active the log ends, for channel 0 and the piezo pins,
    with the channel enabled and the pins handed to the peripheral. *)
Definition sounding_means_driven (s : state) : Prop :=
  beepTicksToGo s <> 0 ->
  last_switch PWM_CHANNEL_0 (hw s) = Some true /\
  last_route PIO_PB0 (hw s) = Some PIO_PERIPH_A /\
  last_route PIO_PB5 (hw s) = Some PIO_PERIPH_B.

(** The descriptors held, and every descriptor handed to
    [pwm_channel_init] so far, are well-formed for their channel. *)
Definition descriptors_ok (IS_ER : bool) (s : state) : Prop :=
  buzzer_descriptor_ok (buzzer_pwm_channel_instance s) /\
  backlight_descriptor_ok IS_ER (backlight_pwm_channel_instance s) /\
  Forall (fun c => buzzer_descriptor_ok c \/
                   (channel c = 1 /\ ul_period c = backlightPeriod IS_ER))
         (channel_inits (hw s)).

(** Calls that can precede [Init] without starting a tone: anything but
    [Init] itself and a [Beep] with a non-zero volume. *)
Definition before_Init_and_Beep (o : op) : bool :=
  match o with
  | OpInit => false
  | OpBeep _ _ volume => volume =? 0
  | _ => true
  end.

(** ** Proof tools *)

Arguments set_beepTicksToGo v !s /.
Arguments set_inBuzzer b !s /.
Arguments set_buzzer c !s /.
Arguments set_backlight c !s /.
Arguments set_PB13 level !s /.
Arguments log op !s /.
Arguments with_ul_period p !c /.
Arguments with_ul_duty d !c /.
Arguments wrap32 : simpl never.
Arguments wrap16 : simpl never.
Arguments dead_time_word : simpl never.
Arguments Z.div : simpl never.
Arguments Z.modulo : simpl never.
Arguments Z.mul : simpl never.
Arguments Z.sub : simpl never.

(** States are taken apart before a function is run on them: the setters
    then reduce against a constructor instead of piling up. *)
Ltac run_m :=
  unfold exec, eval, call, when, bind, read, modify, ret, udiv,
    board_drives_PB13, boardTypePort_read, Beep_period;
  cbn [beepTicksToGo inBuzzer buzzer_pwm_channel_instance
       backlight_pwm_channel_instance PB13 hw
       set_beepTicksToGo set_inBuzzer set_buzzer set_backlight set_PB13 log
       with_ul_period with_ul_duty
       channel ul_prescaler alignment ul_period ul_duty negb andb fst snd
       Z.eqb].

(** Linear arithmetic with divisions by constants. *)
Ltac div_lia := Z.to_euclidean_division_equations; lia.

Lemma wrap32_small (z : Z) : 0 <= z < 2 ^ 32 -> wrap32 z = z.
Proof. intros H. unfold wrap32. apply Z.mod_small. exact H. Qed.

Lemma wrap16_small (z : Z) : 0 <= z < 2 ^ 16 -> wrap16 z = z.
Proof. intros H. unfold wrap16. apply Z.mod_small. exact H. Qed.

(** *** Beep *)

Lemma Beep_silent (f ms : Z) (s : state) : exec (Beep f ms 0) s = Some s.
Proof. reflexivity. Qed.

Lemma Beep_busy (f ms v : Z) (s : state) :
  v <> 0 -> beepTicksToGo s <> 0 ->
  exec (Beep f ms v) s = Some (set_inBuzzer false s).
Proof.
  intros Hv Ht. apply Z.eqb_neq in Hv. apply Z.eqb_neq in Ht.
  destruct s as [t b bz bl pin l]. cbn [beepTicksToGo] in Ht.
  unfold Beep. run_m. rewrite Hv. run_m. rewrite Ht. reflexivity.
Qed.

Lemma Beep_starts (f ms v : Z) (s : state) :
  v <> 0 -> f <> 0 -> beepTicksToGo s = 0 ->
  let period := pwmClockFrequency / f in
  let deadTime := Beep_deadTime period (Beep_onTime period (clamped v)) in
  let inst := with_ul_duty (period / 2)
                (with_ul_period period (buzzer_pwm_channel_instance s)) in
  exec (Beep f ms v) s =
  Some (mk_state ms false inst (backlight_pwm_channel_instance s) (PB13 s)
                 (hw s ++ tone_start inst deadTime)).
Proof.
  intros Hv Hf Ht period deadTime inst.
  apply Z.eqb_neq in Hv. apply Z.eqb_neq in Hf.
  destruct s as [t b bz bl pin l]. cbn [beepTicksToGo] in Ht. subst t.
  destruct bz as [ch pre al per du].
  subst inst deadTime period. unfold Beep, tone_start, clamped.
  run_m. rewrite Hv. run_m. cbn [Z.eqb]. run_m. rewrite Hf. run_m.
  repeat rewrite <- app_assoc. reflexivity.
Qed.

(** *** Sequencing *)

Lemma exec_seq (m k : M unit) (s : state) :
  exec (m ;; k) s =
  match exec m s with
  | Some s' => exec k s'
  | None => None
  end.
Proof.
  unfold exec, bind. destruct (m s) as [[[] s']|]; reflexivity.
Qed.

Lemma eval_Noisy (s : state) :
  eval Noisy s = Some (negb (beepTicksToGo s =? 0)).
Proof. reflexivity. Qed.

(** *** Tick *)

Lemma Tick_idle (s : state) : beepTicksToGo s = 0 -> exec Tick s = Some s.
Proof.
  destruct s as [t b bz bl pin l]. cbn [beepTicksToGo]. intros ->.
  unfold Tick. run_m. cbn [Z.eqb]. rewrite andb_false_r. reflexivity.
Qed.

Lemma Tick_suppressed (s : state) : inBuzzer s = true -> exec Tick s = Some s.
Proof.
  destruct s as [t b bz bl pin l]. cbn [inBuzzer]. intros ->.
  unfold Tick. run_m. reflexivity.
Qed.

Lemma Tick_counts (s : state) :
  inBuzzer s = false -> 1 < beepTicksToGo s < 2 ^ 32 ->
  exec Tick s = Some (set_beepTicksToGo (beepTicksToGo s - 1) s).
Proof.
  destruct s as [t b bz bl pin l]. cbn [inBuzzer beepTicksToGo].
  intros -> Ht. unfold Tick. run_m.
  assert (E0 : (t =? 0) = false) by (apply Z.eqb_neq; lia).
  rewrite E0. run_m. rewrite wrap32_small by lia.
  assert (E1 : (t - 1 =? 0) = false) by (apply Z.eqb_neq; lia).
  rewrite E1. reflexivity.
Qed.

Lemma Tick_ends (s : state) :
  inBuzzer s = false -> beepTicksToGo s = 1 ->
  exec Tick s =
  Some (mk_state 0 false (buzzer_pwm_channel_instance s)
                 (backlight_pwm_channel_instance s) (PB13 s)
                 (hw s ++ tone_stop)).
Proof.
  destruct s as [t b bz bl pin l]. cbn [inBuzzer beepTicksToGo].
  intros -> ->. unfold Tick, tone_stop. run_m.
  change (wrap32 (1 - 1)) with 0. run_m.
  repeat rewrite <- app_assoc. reflexivity.
Qed.

(** Fewer ticks than the count: the count goes down and nothing else moves. *)
Lemma Ticks_countdown (n : nat) :
  forall s, inBuzzer s = false -> beepTicksToGo s < 2 ^ 32 ->
            Z.of_nat n < beepTicksToGo s ->
            exec (Ticks n) s =
            Some (set_beepTicksToGo (beepTicksToGo s - Z.of_nat n) s).
Proof.
  induction n as [|n IH]; intros s Hb Hlt Hn.
  - destruct s as [t b bz bl pin l]. cbn [Ticks Z.of_nat]. run_m.
    rewrite Z.sub_0_r. reflexivity.
  - cbn [Ticks]. rewrite exec_seq, Tick_counts by (auto; lia).
    rewrite IH.
    + destruct s as [t b bz bl pin l]. run_m. do 2 f_equal. lia.
    + destruct s; exact Hb.
    + destruct s; run_m; cbn [beepTicksToGo] in *; lia.
    + destruct s; run_m; cbn [beepTicksToGo] in *; lia.
Qed.

(** Exactly as many ticks as the count: the tone is switched off. *)
Lemma Ticks_complete (n : nat) :
  forall s, inBuzzer s = false -> beepTicksToGo s < 2 ^ 32 ->
            beepTicksToGo s = Z.of_nat (S n) ->
            exec (Ticks (S n)) s =
            Some (mk_state 0 false (buzzer_pwm_channel_instance s)
                           (backlight_pwm_channel_instance s) (PB13 s)
                           (hw s ++ tone_stop)).
Proof.
  induction n as [|n IH]; intros s Hb Hlt Hn.
  - cbn [Ticks]. rewrite exec_seq, Tick_ends by (auto; lia). reflexivity.
  - change (Ticks (S (S n))) with (Tick ;; Ticks (S n)).
    rewrite exec_seq, Tick_counts by (auto; lia).
    rewrite IH.
    + destruct s; reflexivity.
    + destruct s; exact Hb.
    + destruct s; run_m; cbn [beepTicksToGo] in *; lia.
    + destruct s; run_m; cbn [beepTicksToGo] in *; lia.
Qed.

(** *** Arithmetic of the tone parameters *)

Lemma period_range (f : Z) :
  0 < f -> 0 <= pwmClockFrequency / f <= 2000000.
Proof.
  intros Hf. unfold pwmClockFrequency. split.
  - apply Z.div_pos; lia.
  - apply Z.div_le_upper_bound; lia.
Qed.

Lemma volume_cases (v : Z) :
  1 <= v <= MaxVolume -> v = 1 \/ v = 2 \/ v = 3 \/ v = 4 \/ v = 5.
Proof. unfold MaxVolume. lia. Qed.

Lemma volumeTable_range (v : Z) :
  1 <= v <= MaxVolume -> 3 <= volumeTable_at (v - 1) <= 80.
Proof.
  intros Hv.
  destruct (volume_cases v Hv) as [-> | [-> | [-> | [-> | ->]]]];
    vm_compute; split; discriminate.
Qed.

(** The product in [onTime] never wraps. *)
Lemma Beep_onTime_exact (p v : Z) :
  0 <= p <= 2000000 -> 1 <= v <= MaxVolume ->
  Beep_onTime p v = (p * volumeTable_at (v - 1)) / 200.
Proof.
  intros Hp Hv. unfold Beep_onTime.
  pose proof (volumeTable_range v Hv) as Hc.
  rewrite wrap32_small; [reflexivity|]. change (2 ^ 32) with 4294967296. nia.
Qed.

Lemma onTime_le_half (p c : Z) :
  0 <= p -> 0 <= c <= 80 -> (p * c) / 200 <= p / 2.
Proof.
  intros Hp Hc.
  transitivity ((p * 80) / 200).
  - apply Z.div_le_mono; nia.
  - div_lia.
Qed.

Lemma onTime_lt_half (p c : Z) :
  6 <= p -> 0 <= c <= 80 -> (p * c) / 200 < p / 2.
Proof.
  intros Hp Hc.
  apply Z.le_lt_trans with ((p * 80) / 200).
  - apply Z.div_le_mono; nia.
  - div_lia.
Qed.

Lemma deadTime_fits (p c : Z) :
  0 <= p <= 133333 -> 3 <= c -> p / 2 - (p * c) / 200 < 2 ^ 16.
Proof.
  intros Hp Hc.
  assert ((p * 3) / 200 <= (p * c) / 200) by (apply Z.div_le_mono; nia).
  change (2 ^ 16) with 65536. div_lia.
Qed.

(** *** The dead-time register word *)

Lemma shifted_disjoint (d : Z) :
  0 <= d < 2 ^ 16 -> Z.land (Z.shiftl d 16) d = 0.
Proof.
  intros Hd. apply Z.bits_inj'. intros n Hn.
  rewrite Z.land_spec, Z.bits_0.
  destruct (Z.lt_ge_cases n 16) as [Hlt | Hge].
  - rewrite Z.shiftl_spec_low by exact Hlt. reflexivity.
  - assert (Hsmall : Z.testbit d n = false).
    { apply Z.testbit_false; [exact Hn|].
      rewrite Z.div_small; [reflexivity|].
      split; [lia|]. apply Z.lt_le_trans with (2 ^ 16); [lia|].
      apply Z.pow_le_mono_r; lia. }
    rewrite Hsmall. apply andb_false_r.
Qed.

Lemma dead_time_word_value (d : Z) :
  0 <= d < 2 ^ 16 -> dead_time_word d = d * 2 ^ 16 + d.
Proof.
  intros Hd. unfold dead_time_word.
  pose proof (Z.add_lor_land (Z.shiftl d 16) d) as H.
  rewrite shifted_disjoint, Z.add_0_r in H by exact Hd.
  rewrite H, Z.shiftl_mul_pow2 by lia.
  apply wrap32_small. change (2 ^ 32) with 4294967296.
  change (2 ^ 16) with 65536 in *. lia.
Qed.

Lemma dead_time_word_DTH (d : Z) :
  0 <= d < 2 ^ 16 -> DTH (dead_time_word d) = d.
Proof.
  intros Hd. rewrite dead_time_word_value by exact Hd. unfold DTH.
  change (2 ^ 16 - 1) with (Z.ones 16). rewrite Z.land_ones by lia.
  rewrite Z.add_comm, Z.mod_add by lia. apply Z.mod_small. exact Hd.
Qed.

Lemma dead_time_word_DTL (d : Z) :
  0 <= d < 2 ^ 16 -> DTL (dead_time_word d) = d.
Proof.
  intros Hd. rewrite dead_time_word_value by exact Hd. unfold DTL.
  rewrite Z.shiftr_div_pow2 by lia.
  rewrite Z.add_comm, Z.div_add by lia.
  rewrite Z.div_small by exact Hd. reflexivity.
Qed.

(** ** The tone sequencer *)

(** C1, as amended: a call [Beep frequency ms volume] with [frequency > 0]
    and [1 <= volume <= MaxVolume], made while no tone is active, programs
    period [pwmClockFrequency / frequency], duty [period / 2] and a dead time
    equal to [period/2 - onTime] reduced modulo [2^16], where
    [onTime = (period * volumeTable[volume-1]) / 200]; the same dead time goes
    into both halves of PWM_DT (and PWM_DTUPD), the channel is enabled, both
    pins are handed to the peripheral and [beepTicksToGo] becomes [ms].  The
    dead time is the plain difference whenever that fits 16 bits, which is
    the case for every frequency of 15 Hz and above. *)
Theorem C1_Beep_programs_tone (frequency ms volume : Z) (s : state) :
  0 < frequency -> 1 <= volume <= MaxVolume -> beepTicksToGo s = 0 ->
  let period := pwmClockFrequency / frequency in
  let onTime := (period * volumeTable_at (volume - 1)) / 200 in
  let deadTime := (period / 2 - onTime) mod 2 ^ 16 in
  let before := buzzer_pwm_channel_instance s in
  let inst := mk_pwm_channel (channel before) (ul_prescaler before)
                             (alignment before) period (period / 2) in
  exists w,
    exec (Beep frequency ms volume) s =
    Some (mk_state ms false inst (backlight_pwm_channel_instance s) (PB13 s)
            (hw s ++ [ pwm_channel_init inst;
                       PWM_CMR_or_DTE PWM_CHANNEL_0;
                       PWM_DT_write PWM_CHANNEL_0 w;
                       PWM_DTUPD_write PWM_CHANNEL_0 w;
                       pwm_channel_enable PWM_CHANNEL_0;
                       pio_configure PIO_PERIPH_A [PIO_PB0];
                       pio_configure PIO_PERIPH_B [PIO_PB5] ]))
    /\ DTH w = deadTime /\ DTL w = deadTime
    /\ (period / 2 - onTime < 2 ^ 16 -> deadTime = period / 2 - onTime)
    /\ (15 <= frequency -> deadTime = period / 2 - onTime).
Proof.
  intros Hf Hv Ht period onTime deadTime before inst.
  pose proof (period_range frequency Hf) as Hp. fold period in Hp.
  pose proof (volumeTable_range volume Hv) as Hc.
  assert (Hon : Beep_onTime period (clamped volume) = onTime).
  { unfold clamped. rewrite Z.gtb_ltb.
    replace (MaxVolume <? volume) with false
      by (symmetry; apply Z.ltb_ge; lia).
    apply Beep_onTime_exact; assumption. }
  assert (Hle : onTime <= period / 2)
    by (apply onTime_le_half; lia).
  assert (H0 : 0 <= onTime) by (apply Z.div_pos; nia).
  assert (Hdead : Beep_deadTime period onTime = deadTime).
  { unfold Beep_deadTime, deadTime, wrap16. f_equal.
    apply wrap32_small. change (2 ^ 32) with 4294967296.
    split; [lia|]. assert (period / 2 <= period) by div_lia. lia. }
  assert (Hrange : 0 <= deadTime < 2 ^ 16)
    by (apply Z.mod_pos_bound; reflexivity).
  exists (dead_time_word deadTime).
  split; [| split; [| split; [| split]]].
  - rewrite Beep_starts by lia. fold period. rewrite Hon, Hdead.
    subst inst before. destruct s as [t b [ch pre al per du] bl pin l].
    reflexivity.
  - apply dead_time_word_DTH, Hrange.
  - apply dead_time_word_DTL, Hrange.
  - intros Hfit. apply Z.mod_small. lia.
  - intros H15. apply Z.mod_small. split; [lia|].
    apply deadTime_fits; [|lia]. split; [lia|].
    enough (period < 133334) by lia.
    apply Z.div_lt_upper_bound; unfold pwmClockFrequency; lia.
Qed.

Lemma C1_Beep_programs_tone_witness :
  exists w,
    exec (Beep 440 100 3) (mk_state 0 false buzzer_pwm_channel_initial
                                    backlight_pwm_channel_initial true []) =
    Some (mk_state 100 false
            (mk_pwm_channel 0 PWM_CMR_CPRE_CLKA PWM_ALIGN_LEFT 4545 2272)
            backlight_pwm_channel_initial true
            [ pwm_channel_init
                (mk_pwm_channel 0 PWM_CMR_CPRE_CLKA PWM_ALIGN_LEFT 4545 2272);
              PWM_CMR_or_DTE PWM_CHANNEL_0;
              PWM_DT_write PWM_CHANNEL_0 w;
              PWM_DTUPD_write PWM_CHANNEL_0 w;
              pwm_channel_enable PWM_CHANNEL_0;
              pio_configure PIO_PERIPH_A [PIO_PB0];
              pio_configure PIO_PERIPH_B [PIO_PB5] ])
    /\ DTH w = 1818 /\ DTL w = 1818.
Proof.
  destruct (C1_Beep_programs_tone 440 100 3
              (mk_state 0 false buzzer_pwm_channel_initial
                        backlight_pwm_channel_initial true []))
    as [w [H1 [H2 [H3 _]]]].
  - lia.
  - unfold MaxVolume. lia.
  - reflexivity.
  - exists w. split; [exact H1 | split; [exact H2 | exact H3]].
Defined.

(** C1 as written fails below 15 Hz: at 1 Hz and volume 1 the difference
    [period/2 - onTime] is 970000, but the dead time put into either half of
    PWM_DT is 52496, its residue modulo [2^16]. *)
Lemma C1_counterexample_1Hz :
  option_map (fun s => PWM_DT_writes (hw s))
             (exec (Init false ;; Beep 1 10 1) (static_state true))
  = Some [52496 * 2 ^ 16 + 52496]
  /\ DTH (52496 * 2 ^ 16 + 52496) = 52496
  /\ DTL (52496 * 2 ^ 16 + 52496) = 52496
  /\ spec_deadTime 1 1 = 970000.
Proof. vm_compute. repeat split. Qed.

(** C4, as amended: for every volume in [1..MaxVolume] and every frequency
    above zero, the [onTime] computed by [Beep] is
    [(period * volumeTable[volume-1]) / 200] and is at most [period/2], so
    the dead time [period/2 - onTime] is never negative; it is strictly
    below [period/2] as soon as the period is at least 6 clock cycles, that
    is for every frequency up to 333333 Hz. *)
Theorem C4_onTime_within_half_period (frequency volume : Z) :
  0 < frequency -> 1 <= volume <= MaxVolume ->
  let period := pwmClockFrequency / frequency in
  let onTime := Beep_onTime period volume in
  onTime = (period * volumeTable_at (volume - 1)) / 200
  /\ onTime <= period / 2
  /\ 0 <= period / 2 - onTime
  /\ (6 <= period -> onTime < period / 2)
  /\ (frequency <= 333333 -> onTime < period / 2).
Proof.
  intros Hf Hv period onTime.
  pose proof (period_range frequency Hf) as Hp. fold period in Hp.
  pose proof (volumeTable_range volume Hv) as Hc.
  assert (Hon : onTime = (period * volumeTable_at (volume - 1)) / 200)
    by (apply Beep_onTime_exact; assumption).
  assert (Hle : onTime <= period / 2)
    by (rewrite Hon; apply onTime_le_half; lia).
  assert (Hlt : 6 <= period -> onTime < period / 2)
    by (intros H6; rewrite Hon; apply onTime_lt_half; lia).
  repeat split; try assumption; try lia.
  intros Hmax. apply Hlt.
  apply Z.div_le_lower_bound; unfold pwmClockFrequency; lia.
Qed.

Lemma C4_onTime_within_half_period_witness :
  Beep_onTime (pwmClockFrequency / 440) 5 = 1818
  /\ Beep_onTime (pwmClockFrequency / 440) 5 < (pwmClockFrequency / 440) / 2.
Proof.
  destruct (C4_onTime_within_half_period 440 5) as [_ [_ [_ [_ H]]]].
  - lia.
  - unfold MaxVolume. lia.
  - split; [reflexivity | apply H; lia].
Defined.

(** C4 as written fails at the top of the frequency range: at 666666 Hz the
    period is 3 and at volume 5 [onTime] equals [period/2] (both are 1). *)
Lemma C4_counterexample_666666Hz :
  pwmClockFrequency / 666666 = 3
  /\ Beep_onTime (pwmClockFrequency / 666666) 5 = 1
  /\ (pwmClockFrequency / 666666) / 2 = 1
  /\ ~ (Beep_onTime (pwmClockFrequency / 666666) 5
        < (pwmClockFrequency / 666666) / 2).
Proof. vm_compute. repeat split. discriminate. Qed.

(** *** Init, and what holds between calls *)

Lemma Init_state (IS_ER : bool) (s : state) :
  exec (Init IS_ER) s =
  Some (mk_state 0 false (buzzer_pwm_channel_instance s)
                 (backlight_pwm_channel_instance s) (PB13 s)
                 (hw s ++ init_ops IS_ER)).
Proof.
  destruct s as [t b bz bl pin l]. unfold Init, init_ops.
  destruct IS_ER; run_m; repeat rewrite <- app_assoc; reflexivity.
Qed.

Lemma Beep_undefined (ms v : Z) (s : state) :
  v <> 0 -> beepTicksToGo s = 0 -> exec (Beep 0 ms v) s = None.
Proof.
  intros Hv Ht. apply Z.eqb_neq in Hv.
  destruct s as [t b bz bl pin l]. cbn [beepTicksToGo] in Ht. subst t.
  unfold Beep. run_m. rewrite Hv. run_m. reflexivity.
Qed.

Lemma SetBacklight_frame (IS_ER : bool) (MaxBrightness b : Z) (s s' : state) :
  exec (SetBacklight IS_ER MaxBrightness b) s = Some s' ->
  beepTicksToGo s' = beepTicksToGo s /\ inBuzzer s' = inBuzzer s /\
  buzzer_pwm_channel_instance s' = buzzer_pwm_channel_instance s /\
  PB13 s' = PB13 s.
Proof.
  destruct s as [t fl bz [ch pre al per du] pin l].
  unfold SetBacklight, duty_full_range, duty_min_max.
  destruct IS_ER; run_m; [destruct pin|]; run_m;
    destruct (MaxBrightness =? 0); run_m; intros H;
    try discriminate H; injection H as <-; repeat split.
Qed.

Lemma static_between_calls (pin : bool) : between_calls (static_state pin).
Proof. split; cbn; [lia | intros H; now elim H]. Qed.

Lemma do_between_calls (IS_ER : bool) (MaxBrightness : Z) (o : op) (s s' : state) :
  op_typed o = true -> between_calls s ->
  exec (do IS_ER MaxBrightness o) s = Some s' -> between_calls s'.
Proof.
  intros Hty [Hrange Hflag] Hrun. destruct o as [| f ms v | | | b | level];
    cbn [do] in Hrun.
  - rewrite Init_state in Hrun. injection Hrun as <-.
    split; cbn; [lia | intros H; now elim H].
  - cbn [op_typed] in Hty. unfold is_uint32 in Hty.
    destruct (Z.eq_dec v 0) as [-> | Hv].
    + rewrite Beep_silent in Hrun. injection Hrun as <-. now split.
    + destruct (Z.eq_dec (beepTicksToGo s) 0) as [Ht | Ht].
      * destruct (Z.eq_dec f 0) as [-> | Hf].
        -- rewrite Beep_undefined in Hrun by assumption. discriminate.
        -- rewrite Beep_starts in Hrun by assumption. injection Hrun as <-.
           split; cbn; [lia | reflexivity].
      * rewrite Beep_busy in Hrun by assumption. injection Hrun as <-.
        destruct s; split; cbn in *; [lia | reflexivity].
  - destruct (inBuzzer s) eqn:Hb.
    + rewrite Tick_suppressed in Hrun by exact Hb. injection Hrun as <-.
      split; [exact Hrange | intros H; specialize (Hflag H); congruence].
    + destruct (Z.eq_dec (beepTicksToGo s) 0) as [Ht | Ht].
      * rewrite Tick_idle in Hrun by exact Ht. injection Hrun as <-.
        split; [exact Hrange | intros H; congruence].
      * destruct (Z.eq_dec (beepTicksToGo s) 1) as [H1 | H1].
        -- rewrite Tick_ends in Hrun by assumption. injection Hrun as <-.
           split; cbn; [lia | reflexivity].
        -- rewrite Tick_counts in Hrun by (auto; lia). injection Hrun as <-.
           destruct s; split; cbn in *; [lia | intros _; exact Hb].
  - destruct s; cbn in Hrun. injection Hrun as <-. now split.
  - apply SetBacklight_frame in Hrun. destruct Hrun as [Ht [Hb _]].
    unfold between_calls. rewrite Ht, Hb. now split.
  - destruct s; cbn in Hrun. injection Hrun as <-. now split.
Qed.

Lemma run_between_calls (IS_ER : bool) (MaxBrightness : Z) (ops : list op) :
  forall s s', forallb op_typed ops = true -> between_calls s ->
               exec (run IS_ER MaxBrightness ops) s = Some s' ->
               between_calls s'.
Proof.
  induction ops as [|o ops IH]; intros s s' Hty Hinv Hrun.
  - cbn in Hrun. injection Hrun as <-. exact Hinv.
  - cbn [forallb] in Hty. apply andb_true_iff in Hty. destruct Hty as [Ho Hty].
    cbn [run] in Hrun. rewrite exec_seq in Hrun.
    destruct (exec (do IS_ER MaxBrightness o) s) as [s1|] eqn:Hdo;
      [| discriminate].
    apply (IH s1 s' Hty); [| exact Hrun].
    exact (do_between_calls IS_ER MaxBrightness o s s1 Ho Hinv Hdo).
Qed.

Lemma reachable_between_calls (IS_ER : bool) (MaxBrightness : Z) (s : state) :
  reachable IS_ER MaxBrightness s -> between_calls s.
Proof.
  intros [pin [ops [Hty Hrun]]].
  exact (run_between_calls IS_ER MaxBrightness ops _ s Hty
           (static_between_calls pin) Hrun).
Qed.

(** C2: after [Init], a call [Beep f d v] with [f > 0], [d > 0] and
    [v > 0] makes [Noisy] true at once; [Noisy] is still true after each of
    the first [d - 1] ticks, and false after the [d]-th, which also switches
    the channel off and drives both piezo pins low. *)
Theorem C2_Beep_sounds_for_d_ticks (IS_ER : bool) (f d v : Z) (s0 : state) :
  0 < f -> 0 < d < 2 ^ 32 -> 0 < v ->
  exists s1,
    exec (Init IS_ER ;; Beep f d v) s0 = Some s1 /\
    eval Noisy s1 = Some true /\
    (forall k, (k < Z.to_nat d)%nat ->
       exists sk, exec (Ticks k) s1 = Some sk /\ eval Noisy sk = Some true) /\
    (exists sd, exec (Ticks (Z.to_nat d)) s1 = Some sd /\
                eval Noisy sd = Some false /\
                hw sd = hw s1 ++ tone_stop).
Proof.
  intros Hf Hd Hv.
  rewrite exec_seq, Init_state, Beep_starts by (cbn; lia).
  cbn [beepTicksToGo buzzer_pwm_channel_instance
       backlight_pwm_channel_instance PB13 hw].
  eexists. split; [reflexivity|].
  assert (Hnz : forall z, z <> 0 -> negb (z =? 0) = true)
    by (intros z Hz; apply Z.eqb_neq in Hz; rewrite Hz; reflexivity).
  split; [| split].
  - rewrite eval_Noisy. cbn [beepTicksToGo]. rewrite Hnz by lia. reflexivity.
  - intros k Hk. rewrite Ticks_countdown by (cbn; lia).
    eexists. split; [reflexivity|].
    rewrite eval_Noisy. cbn. rewrite Hnz by lia. reflexivity.
  - destruct (Z.to_nat d) as [|n] eqn:Hn; [lia|].
    rewrite Ticks_complete by (cbn; lia).
    eexists. split; [reflexivity|]. split; reflexivity.
Qed.

Lemma C2_Beep_sounds_for_d_ticks_witness :
  exists s1,
    exec (Init false ;; Beep 440 100 3) (static_state true) = Some s1 /\
    eval Noisy s1 = Some true /\
    (exists s99, exec (Ticks 99) s1 = Some s99 /\ eval Noisy s99 = Some true) /\
    (exists s100, exec (Ticks 100) s1 = Some s100 /\
                  eval Noisy s100 = Some false).
Proof.
  destruct (C2_Beep_sounds_for_d_ticks false 440 100 3 (static_state true))
    as [s1 [H1 [H2 [H3 [sd [H4 [H5 _]]]]]]].
  - lia.
  - lia.
  - lia.
  - exists s1. split; [exact H1|]. split; [exact H2|]. split.
    + apply (H3 99%nat). vm_compute. reflexivity.
    + exists sd. split; [exact H4 | exact H5].
Defined.

(** C3: whatever its arguments, a [Beep] made while a tone is active (in any
    state the program can be in between two calls) returns with the state
    untouched: [beepTicksToGo] is the same, nothing is sent to the driver and
    the channel descriptor keeps the period and duty of the tone in
    progress.  That tone then runs for exactly the ticks it had left. *)
Theorem C3_Beep_while_sounding_is_ignored
    (IS_ER : bool) (MaxBrightness : Z) (f d v : Z) (s : state) :
  reachable IS_ER MaxBrightness s ->
  eval Noisy s = Some true ->
  exec (Beep f d v) s = Some s /\
  (forall k, (k < Z.to_nat (beepTicksToGo s))%nat ->
     exists sk, exec (Beep f d v ;; Ticks k) s = Some sk /\
                eval Noisy sk = Some true /\
                buzzer_pwm_channel_instance sk = buzzer_pwm_channel_instance s /\
                hw sk = hw s) /\
  (exists sn, exec (Beep f d v ;; Ticks (Z.to_nat (beepTicksToGo s))) s = Some sn /\
              eval Noisy sn = Some false /\
              buzzer_pwm_channel_instance sn = buzzer_pwm_channel_instance s /\
              hw sn = hw s ++ tone_stop).
Proof.
  intros Hreach Hnoisy.
  destruct (reachable_between_calls _ _ _ Hreach) as [Hrange Hflag].
  rewrite eval_Noisy in Hnoisy.
  assert (Ht : beepTicksToGo s <> 0).
  { intros E. rewrite E in Hnoisy. discriminate. }
  specialize (Hflag Ht).
  assert (Hsame : exec (Beep f d v) s = Some s).
  { destruct (Z.eq_dec v 0) as [-> | Hv].
    - apply Beep_silent.
    - rewrite Beep_busy by assumption. destruct s. cbn in Hflag. subst.
      reflexivity. }
  assert (Hnz : forall z, z <> 0 -> negb (z =? 0) = true)
    by (intros z Hz; apply Z.eqb_neq in Hz; rewrite Hz; reflexivity).
  split; [exact Hsame | split].
  - intros k Hk. rewrite exec_seq, Hsame, Ticks_countdown by (auto; lia).
    eexists. split; [reflexivity|]. rewrite eval_Noisy.
    destruct s. cbn in *. rewrite Hnz by lia. repeat split.
  - rewrite exec_seq, Hsame.
    destruct (Z.to_nat (beepTicksToGo s)) as [|n] eqn:Hn; [lia|].
    rewrite Ticks_complete by (auto; lia).
    eexists. split; [reflexivity|]. repeat split.
Qed.

Lemma C3_Beep_while_sounding_is_ignored_witness :
  exec (Beep 880 50 5) tone_in_progress = Some tone_in_progress.
Proof.
  apply (C3_Beep_while_sounding_is_ignored false 100 880 50 5 tone_in_progress).
  - exists true, [OpInit; OpBeep 440 50 3; OpTick].
    split; vm_compute; reflexivity.
  - reflexivity.
Defined.

(** C8: a volume above [MaxVolume] is clamped, not rejected: for every
    frequency, duration and state, [Beep f d v] with [v > MaxVolume] does
    exactly what [Beep f d MaxVolume] does (same outcome, same state, same
    driver traffic).  In particular the call is not dropped: made while no
    tone is active, with a non-zero frequency, it starts the tone of the
    last table entry, [volumeTable[MaxVolume-1] = 80]: period
    [pwmClockFrequency / f], duty [period / 2], the dead time computed from
    [onTime = (period * volumeTable[MaxVolume-1]) / 200], channel enabled,
    pins routed, counter set to [d].  With a tone active it is refused like
    any other [Beep]. *)
Theorem C8_Beep_clamps_volume (f d v : Z) (s : state) :
  MaxVolume < v ->
  Beep f d v s = Beep f d MaxVolume s /\
  volumeTable_at (MaxVolume - 1) = 80 /\
  (f <> 0 -> beepTicksToGo s = 0 ->
   let period := pwmClockFrequency / f in
   let onTime := wrap32 (period * volumeTable_at (MaxVolume - 1)) / 200 in
   let deadTime := wrap16 (wrap32 (period / 2 - onTime)) in
   let before := buzzer_pwm_channel_instance s in
   let inst := mk_pwm_channel (channel before) (ul_prescaler before)
                              (alignment before) period (period / 2) in
   exec (Beep f d v) s =
   Some (mk_state d false inst (backlight_pwm_channel_instance s) (PB13 s)
           (hw s ++ [ pwm_channel_init inst;
                      PWM_CMR_or_DTE PWM_CHANNEL_0;
                      PWM_DT_write PWM_CHANNEL_0 (dead_time_word deadTime);
                      PWM_DTUPD_write PWM_CHANNEL_0 (dead_time_word deadTime);
                      pwm_channel_enable PWM_CHANNEL_0;
                      pio_configure PIO_PERIPH_A [PIO_PB0];
                      pio_configure PIO_PERIPH_B [PIO_PB5] ]))) /\
  (beepTicksToGo s <> 0 ->
   exec (Beep f d v) s = Some (set_inBuzzer false s)).
Proof.
  intros Hv.
  assert (Hv0 : v <> 0) by (unfold MaxVolume in Hv; lia).
  split; [| split; [reflexivity | split]].
  - unfold Beep.
    assert (E0 : (v =? 0) = false) by (apply Z.eqb_neq; exact Hv0).
    assert (E1 : (v >? MaxVolume) = true)
      by (rewrite Z.gtb_ltb; apply Z.ltb_lt; exact Hv).
    rewrite E0, E1. reflexivity.
  - intros Hf Ht period onTime deadTime before inst.
    rewrite Beep_starts by assumption.
    assert (Hc : clamped v = MaxVolume).
    { unfold clamped. rewrite Z.gtb_ltb.
      replace (MaxVolume <? v) with true by (symmetry; apply Z.ltb_lt; exact Hv).
      reflexivity. }
    rewrite Hc. subst inst before deadTime onTime period.
    destruct s as [t b [ch pre al per du] bl pin l]. reflexivity.
  - intros Ht. apply Beep_busy; assumption.
Qed.

Lemma C8_Beep_clamps_volume_witness :
  Beep 440 100 9 (static_state true) = Beep 440 100 MaxVolume (static_state true)
  /\ option_map (fun s => (beepTicksToGo s, buzzer_pwm_channel_instance s,
                            map DTH (PWM_DT_writes (hw s))))
       (exec (Beep 440 100 9) (static_state true))
     = Some (100, mk_pwm_channel 0 PWM_CMR_CPRE_CLKA PWM_ALIGN_LEFT 4545 2272,
             [454]).
Proof.
  destruct (C8_Beep_clamps_volume 440 100 9 (static_state true))
    as [H1 [_ [H2 _]]].
  - unfold MaxVolume. lia.
  - split; [exact H1|].
    rewrite H2; [vm_compute; reflexivity | discriminate | reflexivity].
Defined.

(** C9: [Beep f d 0] is a pure no-op for every [f] and [d]: it returns with
    the whole state as it found it (tick counter, flag, channel descriptors
    and the log of driver calls and register writes). *)
Theorem C9_Beep_volume_zero_is_noop (f d : Z) (s : state) :
  Beep f d 0 s = Some (tt, s).
Proof. reflexivity. Qed.

Lemma do_before_Init_and_Beep
    (IS_ER : bool) (MaxBrightness : Z) (o : op) (s s' : state) :
  before_Init_and_Beep o = true ->
  inBuzzer s = true -> beepTicksToGo s = 0 ->
  exec (do IS_ER MaxBrightness o) s = Some s' ->
  inBuzzer s' = true /\ beepTicksToGo s' = 0.
Proof.
  intros Hq Hb Ht Hrun.
  destruct o as [| f ms v | | | b | level]; cbn [do] in Hrun.
  - discriminate Hq.
  - cbn [before_Init_and_Beep] in Hq. apply Z.eqb_eq in Hq. subst v.
    rewrite Beep_silent in Hrun. injection Hrun as <-. auto.
  - rewrite Tick_suppressed in Hrun by exact Hb. injection Hrun as <-. auto.
  - destruct s; cbn in Hrun. injection Hrun as <-. auto.
  - apply SetBacklight_frame in Hrun. destruct Hrun as [Ht' [Hb' _]].
    rewrite Ht', Hb'. auto.
  - destruct s; cbn in Hrun. injection Hrun as <-. auto.
Qed.

Lemma run_before_Init_and_Beep
    (IS_ER : bool) (MaxBrightness : Z) (ops : list op) :
  forall s s', forallb before_Init_and_Beep ops = true ->
               inBuzzer s = true -> beepTicksToGo s = 0 ->
               exec (run IS_ER MaxBrightness ops) s = Some s' ->
               inBuzzer s' = true /\ beepTicksToGo s' = 0.
Proof.
  induction ops as [|o ops IH]; intros s s' Hq Hb Ht Hrun.
  - cbn in Hrun. injection Hrun as <-. auto.
  - cbn [forallb] in Hq. apply andb_true_iff in Hq. destruct Hq as [Ho Hq].
    cbn [run] in Hrun. rewrite exec_seq in Hrun.
    destruct (exec (do IS_ER MaxBrightness o) s) as [s1|] eqn:Hdo;
      [| discriminate].
    destruct (do_before_Init_and_Beep IS_ER MaxBrightness o s s1 Ho Hb Ht Hdo)
      as [Hb1 Ht1].
    exact (IH s1 s' Hq Hb1 Ht1 Hrun).
Qed.

(** C10, as amended: the statics start with the flag set and the counter at
    zero, and they stay so until [Init] or a [Beep] with a non-zero volume
    is called.  Every tick interrupt that fires before [Init] and before any
    such [Beep] (whatever else was called before it: ticks, [Noisy],
    [SetBacklight], [Beep] with volume 0, changes of the board-type pin) is
    a complete no-op: it returns the state as it found it, with nothing
    decremented and nothing sent to the driver, and so does any number of
    ticks in a row. *)
Theorem C10_Tick_before_Init_and_Beep_is_noop
    (IS_ER : bool) (MaxBrightness : Z) (pin : bool) (ops : list op) (s : state) :
  forallb before_Init_and_Beep ops = true ->
  exec (run IS_ER MaxBrightness ops) (static_state pin) = Some s ->
  inBuzzer (static_state pin) = true /\
  beepTicksToGo (static_state pin) = 0 /\
  hw (static_state pin) = [] /\
  inBuzzer s = true /\
  beepTicksToGo s = 0 /\
  exec Tick s = Some s /\
  forall n, exec (Ticks n) s = Some s.
Proof.
  intros Hq Hrun.
  destruct (run_before_Init_and_Beep IS_ER MaxBrightness ops
              (static_state pin) s Hq eq_refl eq_refl Hrun) as [Hb Ht].
  split; [reflexivity|]. split; [reflexivity|]. split; [reflexivity|].
  split; [exact Hb|]. split; [exact Ht|].
  split; [apply Tick_suppressed; exact Hb|].
  induction n as [|n IH].
  - reflexivity.
  - cbn [Ticks]. rewrite exec_seq, Tick_suppressed by exact Hb. exact IH.
Qed.

Lemma C10_Tick_before_Init_and_Beep_is_noop_witness :
  exists s,
    exec (run false 100 [OpTick; OpSetBacklight 50; OpBeep 440 10 0; OpTick])
         (static_state true) = Some s /\
    exec Tick s = Some s /\
    exec (Ticks 25) (static_state true) = Some (static_state true).
Proof.
  eexists. split; [vm_compute; reflexivity|].
  split.
  - apply (C10_Tick_before_Init_and_Beep_is_noop false 100 true
             [OpTick; OpSetBacklight 50; OpBeep 440 10 0; OpTick]).
    + reflexivity.
    + vm_compute. reflexivity.
  - apply (C10_Tick_before_Init_and_Beep_is_noop false 100 true []).
    + reflexivity.
    + reflexivity.
Defined.

(** C10 as written fails once a tone has been started before [Init]: after
    [Beep(440, 2, 3)] on the statics the flag is clear, so the first tick
    takes the counter from 2 to 1 and the second one sends the stop
    sequence to the driver. *)
Lemma C10_counterexample_Beep_before_Init :
  option_map (fun s => (inBuzzer s, beepTicksToGo s))
             (exec (Beep 440 2 3) (static_state true)) = Some (false, 2)
  /\ option_map beepTicksToGo
                (exec (Beep 440 2 3 ;; Tick) (static_state true)) = Some 1
  /\ option_map hw (exec (Beep 440 2 3 ;; Tick ;; Tick) (static_state true))
     = option_map (fun s => hw s ++ tone_stop)
                  (exec (Beep 440 2 3 ;; Tick) (static_state true)).
Proof. vm_compute. repeat split. Qed.

(** ** The backlight mapper *)

Lemma backlightPeriod_non_ER : backlightPeriod false = 6666.
Proof. reflexivity. Qed.

Lemma backlightPeriod_ER : backlightPeriod true = 100.
Proof. reflexivity. Qed.

Lemma minPwm_ER : minPwm true = 56.
Proof. vm_compute. reflexivity. Qed.

Lemma maxPwm_ER : maxPwm true = 78.
Proof. vm_compute. reflexivity. Qed.

Lemma SetBacklight_run (IS_ER : bool) (MaxBrightness b : Z) (s : state) :
  MaxBrightness <> 0 ->
  let before := backlight_pwm_channel_instance s in
  let inst := mk_pwm_channel (channel before) (ul_prescaler before)
                (alignment before) (backlightPeriod IS_ER)
                (SetBacklight_duty IS_ER MaxBrightness (PB13 s) b) in
  exec (SetBacklight IS_ER MaxBrightness b) s =
  Some (mk_state (beepTicksToGo s) (inBuzzer s) (buzzer_pwm_channel_instance s)
                 inst (PB13 s)
                 (hw s ++ [pwm_channel_init inst; pwm_channel_enable PWM_CHANNEL_1])).
Proof.
  intros HM before inst. apply Z.eqb_neq in HM. subst inst before.
  destruct s as [t fl bz [ch pre al per du] pin l].
  unfold SetBacklight, SetBacklight_duty, duty_full_range, duty_min_max.
  destruct IS_ER; run_m; [destruct pin|]; run_m; rewrite HM; run_m;
    repeat rewrite <- app_assoc; reflexivity.
Qed.

Section Scale.

(** The brightness scale, for which only its name is known here: it is
    positive, and the largest product formed by [SetBacklight] (at
    brightness 0, on a non-ER build) fits 32 bits. *)
Variable MaxBrightness : Z.
Hypothesis scale_positive : 0 < MaxBrightness.
Hypothesis scale_fits : (backlightPeriod false - 1) * MaxBrightness < 2 ^ 32.

Lemma linear_exact (c b : Z) :
  0 <= c <= 6665 -> 0 <= b <= MaxBrightness ->
  wrap32 (wrap32 c * wrap32 (MaxBrightness - b)) / MaxBrightness
  = (c * (MaxBrightness - b)) / MaxBrightness.
Proof.
  intros Hc Hb. rewrite backlightPeriod_non_ER in scale_fits.
  change (2 ^ 32) with 4294967296 in scale_fits.
  rewrite (wrap32_small c) by (change (2 ^ 32) with 4294967296; lia).
  rewrite (wrap32_small (MaxBrightness - b))
    by (change (2 ^ 32) with 4294967296; lia).
  rewrite wrap32_small by (change (2 ^ 32) with 4294967296; nia).
  reflexivity.
Qed.

Lemma linear_range (c b : Z) :
  0 <= c -> 0 <= b <= MaxBrightness ->
  0 <= (c * (MaxBrightness - b)) / MaxBrightness <= c.
Proof.
  intros Hc Hb. split.
  - apply Z.div_pos; nia.
  - apply Z.div_le_upper_bound; nia.
Qed.

Lemma linear_antitone (c b1 b2 : Z) :
  0 <= c -> b1 <= b2 ->
  (c * (MaxBrightness - b2)) / MaxBrightness
  <= (c * (MaxBrightness - b1)) / MaxBrightness.
Proof.
  intros Hc Hb. apply Z.div_le_mono; nia.
Qed.

Lemma SetBacklight_duty_full (IS_ER pin : bool) (b : Z) :
  0 <= b <= MaxBrightness -> (IS_ER = true -> pin = true) ->
  SetBacklight_duty IS_ER MaxBrightness pin b
  = ((backlightPeriod IS_ER - 1) * (MaxBrightness - b)) / MaxBrightness.
Proof.
  intros Hb Hpin. unfold SetBacklight_duty.
  destruct IS_ER; [rewrite (Hpin eq_refl)|]; apply linear_exact;
    try exact Hb; vm_compute; split; discriminate.
Qed.

Lemma SetBacklight_duty_min_max (b : Z) :
  0 <= b <= MaxBrightness ->
  SetBacklight_duty true MaxBrightness false b
  = minPwm true + ((maxPwm true - minPwm true) * (MaxBrightness - b)) / MaxBrightness.
Proof.
  intros Hb. unfold SetBacklight_duty.
  rewrite linear_exact by (try exact Hb; vm_compute; split; discriminate).
  apply wrap32_small. rewrite minPwm_ER, maxPwm_ER.
  pose proof (linear_range (78 - 56) b ltac:(lia) Hb).
  change (2 ^ 32) with 4294967296. lia.
Qed.

Lemma SetBacklight_duty_antitone (IS_ER pin : bool) (b1 b2 : Z) :
  0 <= b1 -> b1 <= b2 -> b2 <= MaxBrightness ->
  SetBacklight_duty IS_ER MaxBrightness pin b2
  <= SetBacklight_duty IS_ER MaxBrightness pin b1.
Proof.
  intros H0 H12 H2.
  destruct IS_ER; [destruct pin|].
  - rewrite !SetBacklight_duty_full by (auto; lia).
    apply linear_antitone; [vm_compute; discriminate | exact H12].
  - rewrite !SetBacklight_duty_min_max by lia.
    apply Z.add_le_mono_l, linear_antitone; [vm_compute; discriminate | exact H12].
  - rewrite !SetBacklight_duty_full by (try discriminate; lia).
    apply linear_antitone; [vm_compute; discriminate | exact H12].
Qed.

End Scale.

(** C5: the duty written by [SetBacklight] is an inverted, linear image of
    the brightness.  On a build without [IS_ER] it is
    [((backlightPeriod - 1) * (MaxBrightness - brightness)) / MaxBrightness]
    for every brightness in [0..MaxBrightness]: [backlightPeriod - 1] at
    brightness 0 and 0 at [MaxBrightness].  On every build (and whatever the
    board-type pin reads) more brightness never gives more duty, so
    brightness 0 gets the largest duty and [MaxBrightness] the smallest. *)
Theorem C5_SetBacklight_inverted_linear
    (IS_ER : bool) (MaxBrightness brightness : Z) (s : state) :
  0 < MaxBrightness ->
  (backlightPeriod false - 1) * MaxBrightness < 2 ^ 32 ->
  0 <= brightness <= MaxBrightness ->
  exists s',
    exec (SetBacklight IS_ER MaxBrightness brightness) s = Some s' /\
    ul_period (backlight_pwm_channel_instance s') = backlightPeriod IS_ER /\
    (IS_ER = false ->
       ul_duty (backlight_pwm_channel_instance s')
       = ((backlightPeriod false - 1) * (MaxBrightness - brightness)) / MaxBrightness
       /\ (brightness = 0 ->
             ul_duty (backlight_pwm_channel_instance s') = backlightPeriod false - 1)
       /\ (brightness = MaxBrightness ->
             ul_duty (backlight_pwm_channel_instance s') = 0)) /\
    (forall dimmer s'',
       0 <= dimmer <= brightness ->
       exec (SetBacklight IS_ER MaxBrightness dimmer) s = Some s'' ->
       ul_duty (backlight_pwm_channel_instance s')
       <= ul_duty (backlight_pwm_channel_instance s'')).
Proof.
  intros Hpos Hfit Hb.
  rewrite SetBacklight_run by lia. eexists. split; [reflexivity|].
  cbn [backlight_pwm_channel_instance ul_period ul_duty].
  split; [reflexivity|]. split.
  - intros ->.
    rewrite SetBacklight_duty_full by (try discriminate; assumption).
    split; [reflexivity|]. split.
    + intros ->. rewrite Z.sub_0_r. apply Z.div_mul. lia.
    + intros ->. rewrite Z.sub_diag, Z.mul_0_r. apply Z.div_0_l. lia.
  - intros dimmer s'' Hd Hrun. rewrite SetBacklight_run in Hrun by lia.
    injection Hrun as <-. cbn [backlight_pwm_channel_instance ul_duty].
    apply SetBacklight_duty_antitone; try assumption; lia.
Qed.

Lemma C5_SetBacklight_inverted_linear_witness :
  exists s',
    exec (SetBacklight false 100 0) (static_state true) = Some s' /\
    ul_period (backlight_pwm_channel_instance s') = 6666 /\
    ul_duty (backlight_pwm_channel_instance s') = 6665.
Proof.
  destruct (C5_SetBacklight_inverted_linear false 100 0 (static_state true))
    as [s' [H1 [H2 [H3 _]]]].
  - lia.
  - vm_compute. reflexivity.
  - lia.
  - exists s'. split; [exact H1|]. split; [exact H2|].
    destruct (H3 eq_refl) as [_ [H0 _]]. exact (H0 eq_refl).
Defined.

(** C6, as amended: on the variant (ER) hardware [SetBacklight] reads the
    board-type pin.  When it reads high (no strap: the older inverter) the
    duty is linear over the full period,
    [((backlightPeriod - 1) * (MaxBrightness - brightness)) / MaxBrightness];
    when it reads low (PB13 grounded: the newer MP3302 inverter behind a
    smoothing filter) the duty is
    [minPwm + ((maxPwm - minPwm) * (MaxBrightness - brightness)) / MaxBrightness]
    and stays between [minPwm] and [maxPwm], for every brightness in
    [0..MaxBrightness]. *)
Theorem C6_variant_duty_by_inverter
    (MaxBrightness brightness : Z) (i : inverter) (s : state) :
  0 < MaxBrightness ->
  (backlightPeriod false - 1) * MaxBrightness < 2 ^ 32 ->
  0 <= brightness <= MaxBrightness ->
  PB13 s = PB13_strap i ->
  exists s',
    exec (SetBacklight true MaxBrightness brightness) s = Some s' /\
    let duty := ul_duty (backlight_pwm_channel_instance s') in
    match i with
    | older_inverter =>
        duty = ((backlightPeriod true - 1) * (MaxBrightness - brightness))
               / MaxBrightness
        /\ 0 <= duty <= backlightPeriod true - 1
    | newer_MP3302 =>
        duty = minPwm true
               + ((maxPwm true - minPwm true) * (MaxBrightness - brightness))
                 / MaxBrightness
        /\ minPwm true <= duty <= maxPwm true
    end.
Proof.
  intros Hpos Hfit Hb Hpin.
  rewrite SetBacklight_run by lia. eexists. split; [reflexivity|].
  cbn [backlight_pwm_channel_instance ul_duty]. rewrite Hpin.
  destruct i; cbn [PB13_strap].
  - rewrite SetBacklight_duty_full by auto. split; [reflexivity|].
    apply linear_range; try assumption. vm_compute. discriminate.
  - rewrite SetBacklight_duty_min_max by auto. split; [reflexivity|].
    assert (H0 : 0 <= maxPwm true - minPwm true) by (vm_compute; discriminate).
    pose proof (linear_range MaxBrightness Hpos (maxPwm true - minPwm true)
                  brightness H0 Hb).
    lia.
Qed.

Lemma C6_variant_duty_by_inverter_witness :
  exists s',
    exec (SetBacklight true 100 0) (static_state (PB13_strap newer_MP3302))
    = Some s' /\
    ul_duty (backlight_pwm_channel_instance s') = 78.
Proof.
  destruct (C6_variant_duty_by_inverter 100 0 newer_MP3302
              (static_state (PB13_strap newer_MP3302)))
    as [s' [H1 [H2 _]]].
  - lia.
  - vm_compute. reflexivity.
  - lia.
  - reflexivity.
  - exists s'. split; [exact H1|]. rewrite H2. vm_compute. reflexivity.
Defined.

(** C6 as written has the two boards the wrong way round: with the newer
    inverter fitted (PB13 grounded) brightness 0 gets duty 78, which is
    [maxPwm], where the specification's full-range formula gives 99; with
    the older one it gets 99 where the specification gives 78. *)
Lemma C6_counterexample_inverters_swapped :
  backlight_duty
    (exec (Init true ;; SetBacklight true 100 0)
          (static_state (PB13_strap newer_MP3302))) = Some 78
  /\ spec_variant_duty 100 newer_MP3302 0 = 99
  /\ backlight_duty
       (exec (Init true ;; SetBacklight true 100 0)
             (static_state (PB13_strap older_inverter))) = Some 99
  /\ spec_variant_duty 100 older_inverter 0 = 78.
Proof. vm_compute. repeat split. Qed.

(** C7, as amended: [Init] only configures the board-type pin as an input
    with pull-up; nothing read from the pin is stored.  Every [SetBacklight]
    call reads the pin itself, so the duty it computes depends on the
    brightness and on the level of the pin at the time of that call, and on
    nothing else in the state: two states that agree on the pin when
    [SetBacklight] is called get the same duty, whatever the pin was at
    [Init]. *)
Theorem C7_variant_read_at_each_call
    (IS_ER : bool) (MaxBrightness brightness : Z) (s1 s2 : state) :
  PB13 s1 = PB13 s2 ->
  backlight_duty (exec (SetBacklight IS_ER MaxBrightness brightness) s1)
  = backlight_duty (exec (SetBacklight IS_ER MaxBrightness brightness) s2).
Proof.
  intros Hpin.
  destruct s1 as [t1 f1 bz1 [ch1 pre1 al1 per1 du1] pin1 l1].
  destruct s2 as [t2 f2 bz2 [ch2 pre2 al2 per2 du2] pin2 l2].
  cbn [PB13] in Hpin. subst pin2.
  unfold backlight_duty, SetBacklight, duty_full_range, duty_min_max.
  destruct IS_ER; run_m; [destruct pin1|]; run_m;
    destruct (MaxBrightness =? 0); reflexivity.
Qed.

Lemma C7_variant_read_at_each_call_witness :
  backlight_duty
    (exec (SetBacklight true 100 0)
          (set_PB13 false (mk_state 0 false buzzer_pwm_channel_initial
                             backlight_pwm_channel_initial true
                             (init_ops true))))
  = backlight_duty
      (exec (SetBacklight true 100 0)
            (mk_state 0 false buzzer_pwm_channel_initial
                      backlight_pwm_channel_initial false (init_ops true))).
Proof.
  apply C7_variant_read_at_each_call. reflexivity.
Defined.

(** C7 as written fails: two runs on ER hardware that both see the pin high
    at [Init] get different duties at brightness 0 (99 and 78) when the pin
    has gone low before [SetBacklight] in the second one. *)
Lemma C7_counterexample_pin_changes_after_Init :
  backlight_duty
    (exec (Init true ;; SetBacklight true 100 0) (static_state true))
  = Some 99
  /\ backlight_duty
       (exec (Init true ;; board_drives_PB13 false ;; SetBacklight true 100 0)
             (static_state true))
     = Some 78.
Proof. vm_compute. split; reflexivity. Qed.

(** ** Further properties of the tone sequencer *)

Lemma Beep_starts_tone (f ms v : Z) (s : state) :
  v <> 0 -> f <> 0 -> beepTicksToGo s = 0 ->
  exec (Beep f ms v) s =
  Some (mk_state ms false (tone_inst (buzzer_pwm_channel_instance s) f)
                 (backlight_pwm_channel_instance s) (PB13 s)
                 (hw s ++ tone_start (tone_inst (buzzer_pwm_channel_instance s) f)
                                     (tone_dead f v))).
Proof.
  intros Hv Hf Ht. rewrite Beep_starts by assumption.
  destruct s as [t b [ch pre al per du] bl pin l]. reflexivity.
Qed.

Lemma Ticks_idle (n : nat) (s : state) :
  beepTicksToGo s = 0 -> exec (Ticks n) s = Some s.
Proof.
  intros Ht. induction n as [|n IH].
  - reflexivity.
  - cbn [Ticks]. rewrite exec_seq, Tick_idle by exact Ht. exact IH.
Qed.

Lemma exec_Ticks_add (a b : nat) :
  forall s, exec (Ticks (a + b)) s =
            match exec (Ticks a) s with
            | Some s' => exec (Ticks b) s'
            | None => None
            end.
Proof.
  induction a as [|a IH]; intros s.
  - reflexivity.
  - cbn [Nat.add Ticks]. rewrite !exec_seq.
    destruct (exec Tick s) as [s1|]; [apply IH | reflexivity].
Qed.

(** X1: the only way [Beep] can go wrong is the division by a zero
    frequency, and it is reached exactly when a tone would be started:
    non-zero volume and no tone active.  In every other case, a zero
    frequency included, the call returns. *)
Theorem X1_Beep_undefined_iff (f ms v : Z) (s : state) :
  exec (Beep f ms v) s = None <-> f = 0 /\ v <> 0 /\ beepTicksToGo s = 0.
Proof.
  split.
  - intros Hnone.
    destruct (Z.eq_dec v 0) as [-> | Hv];
      [rewrite Beep_silent in Hnone; discriminate|].
    destruct (Z.eq_dec (beepTicksToGo s) 0) as [Ht | Ht];
      [| rewrite Beep_busy in Hnone by assumption; discriminate].
    destruct (Z.eq_dec f 0) as [Hf | Hf];
      [| rewrite Beep_starts in Hnone by assumption; discriminate].
    auto.
  - intros [-> [Hv Ht]]. apply Beep_undefined; assumption.
Qed.

(** X2: tones can follow one another, but never overlap.  From an idle
    state, once a tone of [d1] ticks has had its [d1] ticks, the next [Beep]
    is accepted: the descriptor and the registers get the parameters of the
    second tone and the counter its duration, and the log shows start, stop,
    start.  One tick earlier the same call is refused and the first tone
    still has one tick to go. *)
Theorem X2_tones_back_to_back (f1 d1 v1 f2 d2 v2 : Z) (s : state) :
  beepTicksToGo s = 0 -> f1 <> 0 -> f2 <> 0 -> v1 <> 0 -> v2 <> 0 ->
  0 < d1 < 2 ^ 32 ->
  let inst1 := tone_inst (buzzer_pwm_channel_instance s) f1 in
  let inst2 := tone_inst (buzzer_pwm_channel_instance s) f2 in
  exec (Beep f1 d1 v1 ;; Ticks (Z.to_nat d1) ;; Beep f2 d2 v2) s =
    Some (mk_state d2 false inst2 (backlight_pwm_channel_instance s) (PB13 s)
            (hw s ++ tone_start inst1 (tone_dead f1 v1) ++ tone_stop
                  ++ tone_start inst2 (tone_dead f2 v2)))
  /\
  exec (Beep f1 d1 v1 ;; Ticks (Z.to_nat d1 - 1) ;; Beep f2 d2 v2) s =
    Some (mk_state 1 false inst1 (backlight_pwm_channel_instance s) (PB13 s)
            (hw s ++ tone_start inst1 (tone_dead f1 v1))).
Proof.
  intros Ht Hf1 Hf2 Hv1 Hv2 Hd inst1 inst2. split.
  - rewrite exec_seq, Beep_starts_tone by assumption.
    rewrite exec_seq.
    destruct (Z.to_nat d1) as [|n] eqn:Hn; [lia|].
    rewrite Ticks_complete by (cbn; lia).
    rewrite Beep_starts_tone by (cbn; auto).
    cbn [beepTicksToGo buzzer_pwm_channel_instance
         backlight_pwm_channel_instance PB13 hw].
    subst inst1 inst2. unfold tone_inst at 3.
    cbn [channel ul_prescaler alignment].
    rewrite <- !app_assoc. reflexivity.
  - rewrite exec_seq, Beep_starts_tone by assumption.
    rewrite exec_seq, Ticks_countdown by (cbn; lia).
    cbn [beepTicksToGo buzzer_pwm_channel_instance
         backlight_pwm_channel_instance PB13 hw set_beepTicksToGo inBuzzer].
    rewrite Beep_busy by (cbn; lia).
    cbn [set_inBuzzer beepTicksToGo buzzer_pwm_channel_instance
         backlight_pwm_channel_instance PB13 hw].
    do 2 f_equal. lia.
Qed.

Lemma X2_tones_back_to_back_witness :
  option_map (fun s => (beepTicksToGo s, ul_period (buzzer_pwm_channel_instance s)))
    (exec (Beep 440 50 3 ;; Ticks 50 ;; Beep 880 20 5)
          (mk_state 0 false buzzer_pwm_channel_initial
                    backlight_pwm_channel_initial true []))
  = Some (20, 2272)
  /\
  option_map (fun s => (beepTicksToGo s, ul_period (buzzer_pwm_channel_instance s)))
    (exec (Beep 440 50 3 ;; Ticks 49 ;; Beep 880 20 5)
          (mk_state 0 false buzzer_pwm_channel_initial
                    backlight_pwm_channel_initial true []))
  = Some (1, 4545).
Proof.
  destruct (X2_tones_back_to_back 440 50 3 880 20 5
              (mk_state 0 false buzzer_pwm_channel_initial
                        backlight_pwm_channel_initial true []))
    as [H1 H2].
  - reflexivity.
  - discriminate.
  - discriminate.
  - discriminate.
  - discriminate.
  - lia.
  - change (Z.to_nat 50) with 50%nat in H1.
    change (Z.to_nat 50 - 1)%nat with 49%nat in H2.
    rewrite H1, H2. split; reflexivity.
Defined.

(** X3: a [Beep] of zero duration is not silent.  From an idle state it
    programs and enables the channel and routes both pins to it like any
    other, but leaves the counter at zero: [Noisy] answers false, and no
    number of ticks ever sends the stop sequence, so the last thing the log
    holds for channel 0 is its enable. *)
Theorem X3_zero_duration_never_stopped (f v : Z) (n : nat) (s : state) :
  beepTicksToGo s = 0 -> f <> 0 -> v <> 0 ->
  exists s',
    exec (Beep f 0 v ;; Ticks n) s = Some s' /\
    exec (Beep f 0 v) s = Some s' /\
    eval Noisy s' = Some false /\
    hw s' = hw s ++ tone_start (tone_inst (buzzer_pwm_channel_instance s) f)
                               (tone_dead f v) /\
    last_switch PWM_CHANNEL_0 (hw s') = Some true /\
    last_route PIO_PB0 (hw s') = Some PIO_PERIPH_A /\
    last_route PIO_PB5 (hw s') = Some PIO_PERIPH_B.
Proof.
  intros Ht Hf Hv.
  rewrite exec_seq, Beep_starts_tone by assumption.
  rewrite Ticks_idle by reflexivity.
  eexists. split; [reflexivity|]. split; [reflexivity|].
  split; [reflexivity|]. split; [reflexivity|].
  cbn [hw]. unfold last_switch, last_route.
  rewrite !fold_left_app. repeat split.
Qed.

Lemma X3_zero_duration_never_stopped_witness :
  exists s',
    exec (Beep 440 0 3 ;; Ticks 1000) (static_state true) = Some s' /\
    eval Noisy s' = Some false /\
    last_switch PWM_CHANNEL_0 (hw s') = Some true.
Proof.
  destruct (X3_zero_duration_never_stopped 440 3 1000 (static_state true))
    as [s' [H1 [_ [H2 [_ [H3 _]]]]]].
  - reflexivity.
  - discriminate.
  - discriminate.
  - exists s'. split; [exact H1 | split; [exact H2 | exact H3]].
Defined.

(** X4: a tone is stopped once, however many ticks follow.  From a state
    with [t] ticks to go and the flag clear, any number of ticks from [t]
    upwards ends in the same state: counter zero, the stop sequence in the
    log exactly once, everything else as it was. *)
Theorem X4_late_ticks_change_nothing (n : nat) (s : state) :
  inBuzzer s = false -> 0 < beepTicksToGo s < 2 ^ 32 ->
  (Z.to_nat (beepTicksToGo s) <= n)%nat ->
  exec (Ticks n) s =
  Some (mk_state 0 false (buzzer_pwm_channel_instance s)
                 (backlight_pwm_channel_instance s) (PB13 s)
                 (hw s ++ tone_stop)).
Proof.
  intros Hb Ht Hn.
  replace n with (Z.to_nat (beepTicksToGo s) + (n - Z.to_nat (beepTicksToGo s)))%nat
    by lia.
  rewrite exec_Ticks_add.
  destruct (Z.to_nat (beepTicksToGo s)) as [|k] eqn:Hk; [lia|].
  rewrite Ticks_complete by (auto; lia).
  apply Ticks_idle. reflexivity.
Qed.

Lemma X4_late_ticks_change_nothing_witness :
  exec (Ticks 500) tone_in_progress = exec (Ticks 49) tone_in_progress.
Proof.
  rewrite (X4_late_ticks_change_nothing 500 tone_in_progress).
  - rewrite (X4_late_ticks_change_nothing 49 tone_in_progress).
    + reflexivity.
    + reflexivity.
    + cbn. lia.
    + cbn. lia.
  - reflexivity.
  - cbn. lia.
  - cbn. lia.
Defined.

(** X5: what one tick can do.  [Tick] always returns; it never touches the
    flag, either channel descriptor or the pin; it leaves the counter alone
    or takes exactly one off; and it talks to the driver only on the step
    from one to zero, where it sends the stop sequence. *)
Theorem X5_Tick_frame (s : state) :
  0 <= beepTicksToGo s < 2 ^ 32 ->
  exists s',
    exec Tick s = Some s' /\
    inBuzzer s' = inBuzzer s /\
    buzzer_pwm_channel_instance s' = buzzer_pwm_channel_instance s /\
    backlight_pwm_channel_instance s' = backlight_pwm_channel_instance s /\
    PB13 s' = PB13 s /\
    ((beepTicksToGo s' = beepTicksToGo s /\ hw s' = hw s) \/
     (inBuzzer s = false /\ 1 < beepTicksToGo s /\
      beepTicksToGo s' = beepTicksToGo s - 1 /\ hw s' = hw s) \/
     (inBuzzer s = false /\ beepTicksToGo s = 1 /\
      beepTicksToGo s' = 0 /\ hw s' = hw s ++ tone_stop)).
Proof.
  intros Ht.
  destruct (inBuzzer s) eqn:Hb.
  - rewrite Tick_suppressed by exact Hb. exists s. rewrite Hb. tauto.
  - destruct (Z.eq_dec (beepTicksToGo s) 0) as [H0 | H0].
    + rewrite Tick_idle by exact H0. exists s. rewrite Hb. tauto.
    + destruct (Z.eq_dec (beepTicksToGo s) 1) as [H1 | H1].
      * rewrite Tick_ends by assumption. eexists. split; [reflexivity|].
        cbn. repeat split. right. right. repeat split. exact H1.
      * rewrite Tick_counts by (auto; lia). eexists. split; [reflexivity|].
        destruct s. cbn in *. repeat split; auto.
        right. left. repeat split. lia.
Qed.

Lemma X5_Tick_frame_witness :
  exists s', exec Tick tone_in_progress = Some s' /\
             beepTicksToGo s' = 48 /\ hw s' = hw tone_in_progress.
Proof.
  destruct (X5_Tick_frame tone_in_progress)
    as [s' [H1 [_ [_ [_ [_ [[H2 _] | [[_ [_ [H2 H3]]] | [_ [H2 _]]]]]]]]]].
  - cbn. lia.
  - exfalso. rewrite Tick_counts in H1 by (cbn; auto; lia).
    injection H1 as <-. cbn in H2. discriminate.
  - exists s'. split; [exact H1 | split; [exact H2 | exact H3]].
  - discriminate.
Defined.

Lemma volumeTable_monotone (v1 v2 : Z) :
  1 <= v1 -> v1 <= v2 -> v2 <= MaxVolume ->
  volumeTable_at (v1 - 1) <= volumeTable_at (v2 - 1).
Proof.
  intros H1 H12 H2.
  destruct (volume_cases v1 ltac:(lia)) as [-> | [-> | [-> | [-> | ->]]]];
    destruct (volume_cases v2 ltac:(lia)) as [-> | [-> | [-> | [-> | ->]]]];
    try lia; vm_compute; discriminate.
Qed.

(** X6: the volume table is increasing, so a higher volume never shortens
    the on-time: for a given frequency, [onTime] grows with the volume over
    [1..MaxVolume].  From 15 Hz upwards, where the dead time is not cut to
    16 bits, the dead time programmed shrinks as the volume grows. *)
Theorem X6_louder_means_less_dead_time (frequency v1 v2 : Z) :
  0 < frequency -> 1 <= v1 -> v1 <= v2 -> v2 <= MaxVolume ->
  let period := pwmClockFrequency / frequency in
  Beep_onTime period v1 <= Beep_onTime period v2 /\
  (15 <= frequency ->
   Beep_deadTime period (Beep_onTime period v2)
   <= Beep_deadTime period (Beep_onTime period v1)).
Proof.
  intros Hf H1 H12 H2 period.
  pose proof (period_range frequency Hf) as Hp. fold period in Hp.
  pose proof (volumeTable_monotone v1 v2 H1 H12 H2) as Hmono.
  pose proof (volumeTable_range v1 ltac:(lia)) as Hc1.
  pose proof (volumeTable_range v2 ltac:(lia)) as Hc2.
  rewrite !Beep_onTime_exact by (try assumption; lia).
  assert (Hon : (period * volumeTable_at (v1 - 1)) / 200
                <= (period * volumeTable_at (v2 - 1)) / 200)
    by (apply Z.div_le_mono; nia).
  split; [exact Hon|].
  intros H15.
  assert (Hsmall : period <= 133333).
  { enough (period < 133334) by lia.
    apply Z.div_lt_upper_bound; unfold pwmClockFrequency; lia. }
  assert (Hexact : forall c, 3 <= c <= 80 ->
            Beep_deadTime period ((period * c) / 200)
            = period / 2 - (period * c) / 200).
  { intros c Hc. unfold Beep_deadTime.
    pose proof (onTime_le_half period c ltac:(lia) ltac:(lia)).
    pose proof (deadTime_fits period c ltac:(lia) ltac:(lia)).
    rewrite wrap32_small
      by (change (2 ^ 32) with 4294967296; change (2 ^ 16) with 65536 in *; lia).
    apply wrap16_small. lia. }
  rewrite !Hexact by assumption. lia.
Qed.

Lemma X6_louder_means_less_dead_time_witness :
  Beep_onTime (pwmClockFrequency / 440) 2 <= Beep_onTime (pwmClockFrequency / 440) 4
  /\ Beep_deadTime (pwmClockFrequency / 440) (Beep_onTime (pwmClockFrequency / 440) 4)
     <= Beep_deadTime (pwmClockFrequency / 440) (Beep_onTime (pwmClockFrequency / 440) 2).
Proof.
  destruct (X6_louder_means_less_dead_time 440 2 4) as [H1 H2].
  - lia.
  - lia.
  - lia.
  - unfold MaxVolume. lia.
  - split; [exact H1 | apply H2; lia].
Defined.

(** X7: there is no guard on high frequencies.  A frequency above the PWM
    clock gives a period of zero, and [Beep] goes through with it: from an
    idle state it programs period 0, duty 0 and dead time 0, enables the
    channel and counts the duration as for any tone. *)
Theorem X7_frequency_above_clock (f ms v : Z) (s : state) :
  pwmClockFrequency < f -> v <> 0 -> beepTicksToGo s = 0 ->
  let before := buzzer_pwm_channel_instance s in
  let inst := mk_pwm_channel (channel before) (ul_prescaler before)
                             (alignment before) 0 0 in
  exec (Beep f ms v) s =
  Some (mk_state ms false inst (backlight_pwm_channel_instance s) (PB13 s)
                 (hw s ++ tone_start inst 0)).
Proof.
  intros Hf Hv Ht before inst.
  assert (Hp : pwmClockFrequency / f = 0)
    by (apply Z.div_small; unfold pwmClockFrequency in *; lia).
  rewrite Beep_starts_tone by (try assumption; unfold pwmClockFrequency in Hf; lia).
  unfold tone_inst, tone_dead. rewrite Hp.
  unfold Beep_onTime, Beep_deadTime. rewrite Z.mul_0_l.
  reflexivity.
Qed.

Lemma X7_frequency_above_clock_witness :
  option_map (fun s => (beepTicksToGo s, buzzer_pwm_channel_instance s))
             (exec (Beep 3000000 25 3) (static_state true))
  = Some (25, mk_pwm_channel 0 PWM_CMR_CPRE_CLKA PWM_ALIGN_LEFT 0 0).
Proof.
  rewrite (X7_frequency_above_clock 3000000 25 3 (static_state true)).
  - reflexivity.
  - reflexivity.
  - discriminate.
  - reflexivity.
Defined.

(** X8: the shift into the upper half of PWM_DT never loses or mixes bits.
    Whatever period and on-time it comes from, the dead time is a 16-bit
    value, the word written to PWM_DT (and PWM_DTUPD) fits the 32-bit
    register, and both of its halves read back as that dead time. *)
Theorem X8_dead_time_word_halves (period onTime : Z) :
  let deadTime := Beep_deadTime period onTime in
  0 <= deadTime < 2 ^ 16 /\
  0 <= dead_time_word deadTime < 2 ^ 32 /\
  DTH (dead_time_word deadTime) = deadTime /\
  DTL (dead_time_word deadTime) = deadTime.
Proof.
  intros deadTime.
  assert (Hr : 0 <= deadTime < 2 ^ 16)
    by (apply Z.mod_pos_bound; reflexivity).
  split; [exact Hr|]. split; [| split].
  - unfold dead_time_word, wrap32. apply Z.mod_pos_bound. reflexivity.
  - apply dead_time_word_DTH, Hr.
  - apply dead_time_word_DTL, Hr.
Qed.

(** ** How the entry points act on the state, case by case *)

Lemma Beep_cases (f ms v : Z) (s s' : state) :
  exec (Beep f ms v) s = Some s' ->
  (v = 0 /\ s' = s) \/
  (v <> 0 /\ beepTicksToGo s <> 0 /\ s' = set_inBuzzer false s) \/
  (v <> 0 /\ f <> 0 /\ beepTicksToGo s = 0 /\
   s' = mk_state ms false (tone_inst (buzzer_pwm_channel_instance s) f)
          (backlight_pwm_channel_instance s) (PB13 s)
          (hw s ++ tone_start (tone_inst (buzzer_pwm_channel_instance s) f)
                              (tone_dead f v))).
Proof.
  intros Hrun.
  destruct (Z.eq_dec v 0) as [-> | Hv].
  - rewrite Beep_silent in Hrun. injection Hrun as <-. auto.
  - destruct (Z.eq_dec (beepTicksToGo s) 0) as [Ht | Ht].
    + destruct (Z.eq_dec f 0) as [-> | Hf].
      * rewrite Beep_undefined in Hrun by assumption. discriminate.
      * rewrite Beep_starts_tone in Hrun by assumption.
        injection Hrun as <-. right. right. auto.
    + rewrite Beep_busy in Hrun by assumption. injection Hrun as <-. auto.
Qed.

Lemma Tick_cases (s s' : state) :
  0 <= beepTicksToGo s < 2 ^ 32 ->
  exec Tick s = Some s' ->
  s' = s \/
  (inBuzzer s = false /\ 1 < beepTicksToGo s /\
   s' = set_beepTicksToGo (beepTicksToGo s - 1) s) \/
  (inBuzzer s = false /\ beepTicksToGo s = 1 /\
   s' = mk_state 0 false (buzzer_pwm_channel_instance s)
          (backlight_pwm_channel_instance s) (PB13 s) (hw s ++ tone_stop)).
Proof.
  intros Ht Hrun.
  destruct (inBuzzer s) eqn:Hb.
  - rewrite Tick_suppressed in Hrun by exact Hb. injection Hrun as <-. auto.
  - destruct (Z.eq_dec (beepTicksToGo s) 0) as [H0 | H0].
    + rewrite Tick_idle in Hrun by exact H0. injection Hrun as <-. auto.
    + destruct (Z.eq_dec (beepTicksToGo s) 1) as [H1 | H1].
      * rewrite Tick_ends in Hrun by assumption. injection Hrun as <-. auto.
      * rewrite Tick_counts in Hrun by (auto; lia). injection Hrun as <-.
        right. left. repeat split. lia.
Qed.

Lemma SetBacklight_undefined (IS_ER : bool) (b : Z) (s : state) :
  exec (SetBacklight IS_ER 0 b) s = None.
Proof.
  destruct s as [t fl bz [ch pre al per du] pin l].
  unfold SetBacklight, duty_full_range, duty_min_max.
  destruct IS_ER; run_m; [destruct pin|]; reflexivity.
Qed.

Lemma SetBacklight_cases (IS_ER : bool) (MaxBrightness b : Z) (s s' : state) :
  exec (SetBacklight IS_ER MaxBrightness b) s = Some s' ->
  MaxBrightness <> 0 /\
  exists inst,
    channel inst = channel (backlight_pwm_channel_instance s) /\
    ul_period inst = backlightPeriod IS_ER /\
    ul_duty inst = SetBacklight_duty IS_ER MaxBrightness (PB13 s) b /\
    s' = mk_state (beepTicksToGo s) (inBuzzer s) (buzzer_pwm_channel_instance s)
           inst (PB13 s)
           (hw s ++ [pwm_channel_init inst; pwm_channel_enable PWM_CHANNEL_1]).
Proof.
  intros Hrun.
  destruct (Z.eq_dec MaxBrightness 0) as [-> | HM].
  - rewrite SetBacklight_undefined in Hrun. discriminate.
  - split; [exact HM|]. rewrite SetBacklight_run in Hrun by exact HM.
    injection Hrun as <-. eexists.
    split; [| split; [| split; [| reflexivity]]]; reflexivity.
Qed.

Lemma last_switch_app (ch : Z) (l l' : list hw_op) :
  last_switch ch (l ++ l') = fold_left (switch_step ch) l' (last_switch ch l).
Proof. unfold last_switch. apply fold_left_app. Qed.

Lemma last_route_app (p : pio_pin) (l l' : list hw_op) :
  last_route p (l ++ l') = fold_left (route_step p) l' (last_route p l).
Proof. unfold last_route. apply fold_left_app. Qed.

Lemma channel_inits_app (l l' : list hw_op) :
  channel_inits (l ++ l') = channel_inits l ++ channel_inits l'.
Proof.
  induction l as [|o l IH]; [reflexivity|].
  destruct o; cbn [app channel_inits]; rewrite IH; reflexivity.
Qed.

(** X9: buzzer and backlight do not interfere.  Whatever [Init], [Beep],
    [Tick] and [Noisy] do, they leave the backlight descriptor as it was;
    [SetBacklight] leaves the tick counter, the flag and the buzzer
    descriptor as they were; and a change of the board-type pin touches
    neither, nor the driver. *)
Theorem X9_buzzer_and_backlight_independent
    (IS_ER : bool) (MaxBrightness : Z) (o : op) (s s' : state) :
  0 <= beepTicksToGo s < 2 ^ 32 ->
  exec (do IS_ER MaxBrightness o) s = Some s' ->
  match o with
  | OpSetBacklight _ => tone_part s' = tone_part s /\ PB13 s' = PB13 s
  | OpBoard _ =>
      tone_part s' = tone_part s /\ backlight_part s' = backlight_part s /\
      hw s' = hw s
  | _ => backlight_part s' = backlight_part s /\ PB13 s' = PB13 s
  end.
Proof.
  intros Ht Hrun. destruct o as [| f ms v | | | b | level]; cbn [do] in Hrun.
  - rewrite Init_state in Hrun. injection Hrun as <-. split; reflexivity.
  - destruct (Beep_cases _ _ _ _ _ Hrun)
      as [[_ ->] | [[_ [_ ->]] | [_ [_ [_ ->]]]]];
      destruct s; split; reflexivity.
  - destruct (Tick_cases _ _ Ht Hrun) as [-> | [[_ [_ ->]] | [_ [_ ->]]]];
      destruct s; split; reflexivity.
  - destruct s; cbn in Hrun. injection Hrun as <-. split; reflexivity.
  - destruct (SetBacklight_cases _ _ _ _ _ Hrun) as [_ [inst [_ [_ [_ ->]]]]].
    split; reflexivity.
  - destruct s; cbn in Hrun. injection Hrun as <-. repeat split.
Qed.

Lemma X9_buzzer_and_backlight_independent_witness :
  exists s', exec (SetBacklight false 100 30) tone_in_progress = Some s' /\
             tone_part s' = tone_part tone_in_progress.
Proof.
  eexists. split.
  - vm_compute. reflexivity.
  - apply (X9_buzzer_and_backlight_independent false 100 (OpSetBacklight 30)
             tone_in_progress).
    + cbn. lia.
    + vm_compute. reflexivity.
Defined.

(** ** Further properties of the backlight mapper *)

(** X10: the backlight is never driven at full duty.  For a brightness in
    [0..MaxBrightness], on either build and whatever the board-type pin
    reads, the duty [SetBacklight] programs is at least 0 and strictly below
    the period it programs with it. *)
Theorem X10_backlight_duty_below_period
    (IS_ER : bool) (MaxBrightness brightness : Z) (s : state) :
  0 < MaxBrightness ->
  (backlightPeriod false - 1) * MaxBrightness < 2 ^ 32 ->
  0 <= brightness <= MaxBrightness ->
  exists s',
    exec (SetBacklight IS_ER MaxBrightness brightness) s = Some s' /\
    0 <= ul_duty (backlight_pwm_channel_instance s')
      < ul_period (backlight_pwm_channel_instance s').
Proof.
  intros Hpos Hfit Hb.
  rewrite SetBacklight_run by lia. eexists. split; [reflexivity|].
  cbn [backlight_pwm_channel_instance ul_duty ul_period].
  destruct IS_ER; [destruct (PB13 s)|].
  - rewrite SetBacklight_duty_full by auto.
    pose proof (linear_range MaxBrightness Hpos (backlightPeriod true - 1)
                  brightness ltac:(vm_compute; discriminate) Hb).
    lia.
  - rewrite SetBacklight_duty_min_max by auto.
    assert (H0 : 0 <= maxPwm true - minPwm true) by (vm_compute; discriminate).
    pose proof (linear_range MaxBrightness Hpos (maxPwm true - minPwm true)
                  brightness H0 Hb).
    rewrite minPwm_ER, maxPwm_ER, backlightPeriod_ER in *. lia.
  - rewrite SetBacklight_duty_full by (auto; discriminate).
    pose proof (linear_range MaxBrightness Hpos (backlightPeriod false - 1)
                  brightness ltac:(vm_compute; discriminate) Hb).
    lia.
Qed.

Lemma X10_backlight_duty_below_period_witness :
  exists s',
    exec (SetBacklight true 100 0) (static_state false) = Some s' /\
    0 <= ul_duty (backlight_pwm_channel_instance s')
      < ul_period (backlight_pwm_channel_instance s').
Proof.
  apply (X10_backlight_duty_below_period true 100 0 (static_state false)).
  - lia.
  - vm_compute. reflexivity.
  - lia.
Defined.

(** X11: the last [SetBacklight] wins.  Two calls in a row leave the
    backlight descriptor exactly as the second call alone would (with the
    pin unchanged in between); the first call survives only in the log,
    which holds the channel set-up of both, in order. *)
Theorem X11_last_SetBacklight_wins
    (IS_ER : bool) (MaxBrightness b1 b2 : Z) (s : state) :
  MaxBrightness <> 0 ->
  exists s1 s2 s12,
    exec (SetBacklight IS_ER MaxBrightness b1) s = Some s1 /\
    exec (SetBacklight IS_ER MaxBrightness b2) s = Some s2 /\
    exec (SetBacklight IS_ER MaxBrightness b1 ;;
          SetBacklight IS_ER MaxBrightness b2) s = Some s12 /\
    backlight_part s12 = backlight_part s2 /\
    tone_part s12 = tone_part s /\
    hw s12 = hw s1 ++ [pwm_channel_init (backlight_part s2);
                       pwm_channel_enable PWM_CHANNEL_1].
Proof.
  intros HM.
  rewrite exec_seq, !SetBacklight_run by exact HM.
  do 3 eexists. split; [reflexivity|]. split; [reflexivity|].
  split; [reflexivity|]. repeat split.
Qed.

Lemma X11_last_SetBacklight_wins_witness :
  backlight_duty
    (exec (SetBacklight false 100 80 ;; SetBacklight false 100 20)
          (static_state true))
  = backlight_duty (exec (SetBacklight false 100 20) (static_state true)).
Proof.
  destruct (X11_last_SetBacklight_wins false 100 80 20 (static_state true))
    as [s1 [s2 [s12 [_ [H2 [H12 [Heq _]]]]]]].
  - discriminate.
  - rewrite H2, H12. unfold backlight_duty, option_map.
    unfold backlight_part in Heq. rewrite Heq. reflexivity.
Defined.

(** X12: [Init] always leaves the module idle and silent.  Called in any
    state, a tone in progress included, it returns with the counter at zero
    and the flag clear, leaves both descriptors alone, and the log then ends
    with both channels disabled, both piezo pins as low outputs and the
    backlight pin routed to the PWM; ticks after it change nothing. *)
Theorem X12_Init_resets (IS_ER : bool) (s : state) :
  exists s',
    exec (Init IS_ER) s = Some s' /\
    beepTicksToGo s' = 0 /\ inBuzzer s' = false /\
    buzzer_pwm_channel_instance s' = buzzer_pwm_channel_instance s /\
    backlight_pwm_channel_instance s' = backlight_pwm_channel_instance s /\
    last_switch PWM_CHANNEL_0 (hw s') = Some false /\
    last_switch PWM_CHANNEL_1 (hw s') = Some false /\
    last_route PIO_PB0 (hw s') = Some PIO_OUTPUT_0 /\
    last_route PIO_PB5 (hw s') = Some PIO_OUTPUT_0 /\
    last_route PIO_PB1 (hw s') = Some PIO_PERIPH_A /\
    forall n, exec (Ticks n) s' = Some s'.
Proof.
  rewrite Init_state. eexists. split; [reflexivity|].
  cbn [beepTicksToGo inBuzzer buzzer_pwm_channel_instance
       backlight_pwm_channel_instance hw].
  rewrite !last_switch_app, !last_route_app.
  destruct IS_ER; repeat split; intros n; apply Ticks_idle; reflexivity.
Qed.

(** ** Invariants of the states between calls *)

Lemma do_sounding_means_driven
    (IS_ER : bool) (MaxBrightness : Z) (o : op) (s s' : state) :
  between_calls s -> sounding_means_driven s ->
  exec (do IS_ER MaxBrightness o) s = Some s' -> sounding_means_driven s'.
Proof.
  intros [Hrange _] Hinv Hrun.
  destruct o as [| f ms v | | | b | level]; cbn [do] in Hrun.
  - rewrite Init_state in Hrun. injection Hrun as <-.
    intros H. now elim H.
  - destruct (Beep_cases _ _ _ _ _ Hrun)
      as [[_ ->] | [[_ [_ ->]] | [_ [_ [_ ->]]]]].
    + exact Hinv.
    + destruct s; exact Hinv.
    + intros _. cbn [hw]. rewrite last_switch_app, !last_route_app.
      repeat split.
  - destruct (Tick_cases _ _ Hrange Hrun) as [-> | [[_ [Ht ->]] | [_ [_ ->]]]].
    + exact Hinv.
    + intros _. destruct s. unfold sounding_means_driven in Hinv.
      cbn [beepTicksToGo hw set_beepTicksToGo] in *. apply Hinv. lia.
    + intros H. now elim H.
  - destruct s; cbn in Hrun. injection Hrun as <-. exact Hinv.
  - destruct (SetBacklight_cases _ _ _ _ _ Hrun) as [_ [inst [_ [_ [_ ->]]]]].
    intros H. cbn [hw beepTicksToGo] in *.
    rewrite last_switch_app, !last_route_app. exact (Hinv H).
  - destruct s; cbn in Hrun. injection Hrun as <-. exact Hinv.
Qed.

Lemma run_sounding_means_driven
    (IS_ER : bool) (MaxBrightness : Z) (ops : list op) :
  forall s s', forallb op_typed ops = true ->
               between_calls s -> sounding_means_driven s ->
               exec (run IS_ER MaxBrightness ops) s = Some s' ->
               sounding_means_driven s'.
Proof.
  induction ops as [|o ops IH]; intros s s' Hty Hbc Hinv Hrun.
  - cbn in Hrun. injection Hrun as <-. exact Hinv.
  - cbn [forallb] in Hty. apply andb_true_iff in Hty. destruct Hty as [Ho Hty].
    cbn [run] in Hrun. rewrite exec_seq in Hrun.
    destruct (exec (do IS_ER MaxBrightness o) s) as [s1|] eqn:Hdo;
      [| discriminate].
    apply (IH s1 s' Hty); [| | exact Hrun].
    + exact (do_between_calls IS_ER MaxBrightness o s s1 Ho Hbc Hdo).
    + exact (do_sounding_means_driven IS_ER MaxBrightness o s s1 Hbc Hinv Hdo).
Qed.

(** X13: the hardware is driven whenever the module says a tone is active.
    In every state the program can reach, if [Noisy] answers true then the
    last enable/disable call in the log for channel 0 is an enable, and the
    last configuration of each piezo pin hands it to the PWM peripheral
    (PB0 to peripheral A, PB5 to peripheral B). *)
Theorem X13_Noisy_means_channel_driven
    (IS_ER : bool) (MaxBrightness : Z) (s : state) :
  reachable IS_ER MaxBrightness s ->
  eval Noisy s = Some true ->
  last_switch PWM_CHANNEL_0 (hw s) = Some true /\
  last_route PIO_PB0 (hw s) = Some PIO_PERIPH_A /\
  last_route PIO_PB5 (hw s) = Some PIO_PERIPH_B.
Proof.
  intros [pin [ops [Hty Hrun]]] Hnoisy.
  assert (Hinv : sounding_means_driven s).
  { apply (run_sounding_means_driven IS_ER MaxBrightness ops
             (static_state pin) s Hty (static_between_calls pin));
      [| exact Hrun].
    intros H. now elim H. }
  apply Hinv. rewrite eval_Noisy in Hnoisy.
  intros E. rewrite E in Hnoisy. discriminate.
Qed.

Lemma X13_Noisy_means_channel_driven_witness :
  last_switch PWM_CHANNEL_0 (hw tone_in_progress) = Some true /\
  last_route PIO_PB0 (hw tone_in_progress) = Some PIO_PERIPH_A /\
  last_route PIO_PB5 (hw tone_in_progress) = Some PIO_PERIPH_B.
Proof.
  apply (X13_Noisy_means_channel_driven false 100 tone_in_progress).
  - exists true, [OpInit; OpBeep 440 50 3; OpTick].
    split; vm_compute; reflexivity.
  - reflexivity.
Defined.

Lemma tone_inst_ok (c : pwm_channel_t) (f : Z) :
  channel c = 0 -> 0 < f -> buzzer_descriptor_ok (tone_inst c f).
Proof.
  intros Hc Hf. unfold buzzer_descriptor_ok, tone_inst.
  cbn [channel ul_period ul_duty].
  pose proof (period_range f Hf) as Hp. unfold pwmClockFrequency in *.
  repeat split; try assumption; lia.
Qed.

Lemma do_descriptors_ok
    (IS_ER : bool) (MaxBrightness : Z) (o : op) (s s' : state) :
  op_typed o = true -> between_calls s -> descriptors_ok IS_ER s ->
  exec (do IS_ER MaxBrightness o) s = Some s' -> descriptors_ok IS_ER s'.
Proof.
  intros Hty [Hrange _] [Hbz [Hbl Hall]] Hrun.
  destruct o as [| f ms v | | | b | level]; cbn [do] in Hrun.
  - rewrite Init_state in Hrun. injection Hrun as <-.
    unfold descriptors_ok.
    cbn [buzzer_pwm_channel_instance backlight_pwm_channel_instance hw].
    rewrite channel_inits_app.
    replace (channel_inits (init_ops IS_ER)) with (@nil pwm_channel_t)
      by (destruct IS_ER; reflexivity).
    rewrite app_nil_r. auto.
  - destruct (Beep_cases _ _ _ _ _ Hrun)
      as [[_ ->] | [[_ [_ ->]] | [_ [Hf [_ ->]]]]].
    + exact (conj Hbz (conj Hbl Hall)).
    + destruct s; exact (conj Hbz (conj Hbl Hall)).
    + cbn [op_typed] in Hty. unfold is_uint32 in Hty.
      assert (Hok : buzzer_descriptor_ok
                      (tone_inst (buzzer_pwm_channel_instance s) f))
        by (apply tone_inst_ok; [apply Hbz | lia]).
      unfold descriptors_ok.
      cbn [buzzer_pwm_channel_instance backlight_pwm_channel_instance hw].
      rewrite channel_inits_app. cbn [tone_start channel_inits].
      split; [exact Hok|]. split; [exact Hbl|].
      apply Forall_app. split; [exact Hall|].
      constructor; [left; exact Hok | constructor].
  - destruct (Tick_cases _ _ Hrange Hrun) as [-> | [[_ [_ ->]] | [_ [_ ->]]]].
    + exact (conj Hbz (conj Hbl Hall)).
    + destruct s; exact (conj Hbz (conj Hbl Hall)).
    + unfold descriptors_ok.
      cbn [buzzer_pwm_channel_instance backlight_pwm_channel_instance hw].
      rewrite channel_inits_app. cbn [tone_stop channel_inits].
      rewrite app_nil_r. auto.
  - destruct s; cbn in Hrun. injection Hrun as <-. exact (conj Hbz (conj Hbl Hall)).
  - destruct (SetBacklight_cases _ _ _ _ _ Hrun)
      as [_ [inst [Hch [Hper [_ ->]]]]].
    unfold descriptors_ok.
    cbn [buzzer_pwm_channel_instance backlight_pwm_channel_instance hw].
    rewrite channel_inits_app. cbn [channel_inits].
    assert (Hch1 : channel inst = 1) by (rewrite Hch; apply Hbl).
    split; [exact Hbz|]. split; [split; [exact Hch1 | right; exact Hper]|].
    apply Forall_app. split; [exact Hall|].
    constructor; [right; split; assumption | constructor].
  - destruct s; cbn in Hrun. injection Hrun as <-. exact (conj Hbz (conj Hbl Hall)).
Qed.

Lemma run_descriptors_ok
    (IS_ER : bool) (MaxBrightness : Z) (ops : list op) :
  forall s s', forallb op_typed ops = true ->
               between_calls s -> descriptors_ok IS_ER s ->
               exec (run IS_ER MaxBrightness ops) s = Some s' ->
               descriptors_ok IS_ER s'.
Proof.
  induction ops as [|o ops IH]; intros s s' Hty Hbc Hinv Hrun.
  - cbn in Hrun. injection Hrun as <-. exact Hinv.
  - cbn [forallb] in Hty. apply andb_true_iff in Hty. destruct Hty as [Ho Hty].
    cbn [run] in Hrun. rewrite exec_seq in Hrun.
    destruct (exec (do IS_ER MaxBrightness o) s) as [s1|] eqn:Hdo;
      [| discriminate].
    apply (IH s1 s' Hty); [| | exact Hrun].
    + exact (do_between_calls IS_ER MaxBrightness o s s1 Ho Hbc Hdo).
    + exact (do_descriptors_ok IS_ER MaxBrightness o s s1 Ho Hbc Hinv Hdo).
Qed.

(** X14: the two channels never get each other's parameters.  In every
    state the program can reach, the buzzer descriptor is on channel 0 with
    a period of at most the PWM clock and a duty of exactly half the period,
    the backlight descriptor is on channel 1 with a period that is either
    still zero or [backlightPeriod], and every descriptor that was ever
    handed to [pwm_channel_init] is of one of these two kinds. *)
Theorem X14_descriptors_well_formed
    (IS_ER : bool) (MaxBrightness : Z) (s : state) :
  reachable IS_ER MaxBrightness s ->
  buzzer_descriptor_ok (buzzer_pwm_channel_instance s) /\
  backlight_descriptor_ok IS_ER (backlight_pwm_channel_instance s) /\
  Forall (fun c => buzzer_descriptor_ok c \/
                   (channel c = 1 /\ ul_period c = backlightPeriod IS_ER))
         (channel_inits (hw s)).
Proof.
  intros [pin [ops [Hty Hrun]]].
  apply (run_descriptors_ok IS_ER MaxBrightness ops (static_state pin) s Hty
           (static_between_calls pin)); [| exact Hrun].
  unfold descriptors_ok, buzzer_descriptor_ok, backlight_descriptor_ok.
  cbn. repeat split; try reflexivity; try discriminate.
  - left. reflexivity.
  - constructor.
Qed.

Lemma X14_descriptors_well_formed_witness :
  buzzer_descriptor_ok (buzzer_pwm_channel_instance tone_in_progress) /\
  backlight_descriptor_ok false (backlight_pwm_channel_instance tone_in_progress).
Proof.
  destruct (X14_descriptors_well_formed false 100 tone_in_progress)
    as [H1 [H2 _]].
  - exists true, [OpInit; OpBeep 440 50 3; OpTick].
    split; vm_compute; reflexivity.
  - split; [exact H1 | exact H2].
Defined.

End Buzzer.
